(** * vibeconnect: the in-page navigation script (script.js)

    A shallow embedding of the section router of [script.js]: the
    document as the script queries it, [switchSection], the hash-change
    handler, the arrow-key navigation and the key-sequence matcher,
    followed by the properties of these functions. *)

From Stdlib Require Import ZArith Ascii String.
From stdpp Require Import base tactics option list.
From Stdlib Require Import Lia.

Local Open Scope string_scope.
Local Open Scope list_scope.

(** ** The document *)

Module Dom.

(** What [textContent] of an element holds.  The script only ever writes
    [channelNames[sectionId]] there: an own title of the table, or, for
    a key such as [constructor], the member that the object inherits
    from [Object.prototype], converted to text by the browser. *)
Inductive TextContent :=
  | Text (s : string)
  | MemberText (name : string).

(** An element, with the attributes and properties the script reads or
    writes: [id], the class list, [data-section], [textContent] and
    [scrollTop].  An absent [id] attribute reads as the empty string, as
    [element.id] does. *)
Record Element := mkElement {
  el_id : string;
  el_classes : list string;
  el_dataSection : option string;
  el_textContent : TextContent;
  el_scrollTop : Z
}.

(** The document is the list of its elements in tree order, the order in
    which [querySelector] and [querySelectorAll] visit them.  A node is
    referred to by its position in this list.  The channel-name label
    holds text only; no element is nested in it. *)
Abbreviation Document := (list Element).

(** [classList.contains], [classList.remove] and [classList.add]. *)
Definition hasClass (c : string) (e : Element) : bool :=
  existsb (String.eqb c) (el_classes e).

Definition classList_remove (c : string) (e : Element) : Element :=
  mkElement (el_id e)
            (List.filter (fun x => negb (String.eqb c x)) (el_classes e))
            (el_dataSection e) (el_textContent e) (el_scrollTop e).

Definition classList_add (c : string) (e : Element) : Element :=
  if hasClass c e then e
  else mkElement (el_id e) (el_classes e ++ [c])
                 (el_dataSection e) (el_textContent e) (el_scrollTop e).

Definition set_scrollTop (z : Z) (e : Element) : Element :=
  mkElement (el_id e) (el_classes e) (el_dataSection e) (el_textContent e) z.

Definition set_textContent (t : TextContent) (e : Element) : Element :=
  mkElement (el_id e) (el_classes e) (el_dataSection e) t (el_scrollTop e).

(** Selectors are predicates on elements. *)
Abbreviation Selector := (Element -> bool).

Fixpoint matchesFrom (n : nat) (sel : Selector) (d : Document) : list nat :=
  match d with
  | [] => []
  | e :: d' =>
      if sel e then n :: matchesFrom (S n) sel d'
      else matchesFrom (S n) sel d'
  end.

(** [document.querySelectorAll]: the matching nodes in tree order. *)
Definition querySelectorAll (sel : Selector) (d : Document) : list nat :=
  matchesFrom 0 sel d.

(** [document.querySelector]: the first matching node, or [null]. *)
Definition querySelector (sel : Selector) (d : Document) : option nat :=
  head (querySelectorAll sel d).

(** [document.getElementById]: the first element with this id; the empty
    string matches nothing. *)
Definition getElementById (s : string) (d : Document) : option nat :=
  if String.eqb s "" then None
  else querySelector (fun e => String.eqb (el_id e) s) d.

(** [nodeList.forEach(n => f(n))] for an [f] that updates the node. *)
Definition forEach (nodes : list nat) (f : Element -> Element)
    (d : Document) : Document :=
  foldl (fun d i => alter f i d) d nodes.

(** The selectors of the script. *)
Definition sel_channelItem : Selector :=
  fun e => hasClass "channel-item" e && bool_decide (is_Some (el_dataSection e)).

Definition sel_contentSection : Selector := hasClass "content-section".

Definition sel_activeSection : Selector :=
  fun e => hasClass "content-section" e && hasClass "active" e.

Definition sel_messagesContainer : Selector := hasClass "messages-container".

Definition sel_dataSection (v : string) : Selector :=
  fun e => match el_dataSection e with
           | Some x => String.eqb x v
           | None => false
           end.

End Dom.

(** ** Session history and the page *)

Module Browser.
Import Dom.

(** The joint session history as a zipper.  Each entry is the fragment
    part of its URL as the address bar shows it: the empty string when
    the URL has none, otherwise [#] followed by the fragment.  Entries
    keep the text handed to [pushState]; the percent-encoding that the
    URL parser applies to some characters is not modelled. *)
Record History := mkHistory {
  back : list string;      (* most recent first *)
  here : string;
  forward : list string
}.

(** [history.pushState(null, null, url)] for a fragment-only [url]: the
    entries after the current one are dropped, a new entry becomes the
    current one.  No document is loaded, nothing is scrolled and no
    [hashchange] event is fired. *)
Definition pushState (url : string) (h : History) : History :=
  mkHistory (here h :: back h) url [].

(** [window.location.hash]: empty when the fragment is empty. *)
Definition location_hash (h : History) : string :=
  if String.eqb (here h) "#" then "" else here h.

Record Page := mkPage {
  document : Document;
  history : History
}.

(** How a call ends.  An exception leaves in place what the statements
    before it did to the page; in an event listener it is reported and
    the page lives on. *)
Inductive Exception := TypeError | SyntaxError.

Inductive Outcome :=
  | Returned (p : Page)
  | Threw (e : Exception) (p : Page).

Definition page_of (o : Outcome) : Page :=
  match o with
  | Returned p => p
  | Threw _ p => p
  end.

Definition andThen (o : Outcome) (k : Page -> Outcome) : Outcome :=
  match o with
  | Returned p => k p
  | Threw e p => Threw e p
  end.

Notation "o >>= k" := (andThen o k) (at level 50, left associativity).

Definition with_document (p : Page) (d : Document) : Page :=
  mkPage d (history p).

End Browser.

(** ** The router *)

Module Router.
Import Dom Browser.

(** The node lists and the label that the [DOMContentLoaded] listener
    takes once.  They select on ids, on [data-section] and on the
    classes [channel-item] and [content-section], none of which the
    script changes, so the model reads them off the current document
    (see [static_switchSection] below). *)
Definition channelItems (d : Document) : list nat :=
  querySelectorAll sel_channelItem d.

Definition sections (d : Document) : list nat :=
  querySelectorAll sel_contentSection d.

Definition channelNameEl (d : Document) : option nat :=
  getElementById "channel-name" d.

(** The title table. *)
Definition channelNames : list (string * string) :=
  [ ("hero", "# welcome");
    ("demo", "# live-demo");
    ("features", "# features");
    ("how-it-works", "# how-it-works");
    ("setup", "# quick-setup") ].

(** The members every object literal inherits from [Object.prototype]. *)
Definition objectPrototypeMembers : list string :=
  [ "constructor"; "toString"; "toLocaleString"; "valueOf";
    "hasOwnProperty"; "isPrototypeOf"; "propertyIsEnumerable";
    "__proto__"; "__defineGetter__"; "__defineSetter__";
    "__lookupGetter__"; "__lookupSetter__" ].

Inductive JSValue :=
  | JSString (s : string)
  | JSMember (name : string)
  | JSUndefined.

Fixpoint assoc (k : string) (l : list (string * string)) : option string :=
  match l with
  | [] => None
  | (k', v) :: l' => if String.eqb k k' then Some v else assoc k l'
  end.

(** [channelNames[sectionId]]. *)
Definition channelNames_get (k : string) : JSValue :=
  match assoc k channelNames with
  | Some v => JSString v
  | None =>
      if existsb (String.eqb k) objectPrototypeMembers then JSMember k
      else JSUndefined
  end.

Definition truthy (v : JSValue) : bool :=
  match v with
  | JSString s => negb (String.eqb s "")
  | JSMember _ => true
  | JSUndefined => false
  end.

Definition toText (v : JSValue) : TextContent :=
  match v with
  | JSString s => Text s
  | JSMember n => MemberText n
  | JSUndefined => Text "undefined"
  end.

(** The selector text is built by pasting [sectionId] between double
    quotes.  When [sectionId] holds no double quote, no backslash, no
    line break and no NUL, the text denotes the attribute test
    [data-section = sectionId].  Otherwise the CSS parser of the browser
    decides what the text means: it may reject it with a SyntaxError or
    read another selector from it.  The model does not follow the parser
    there and ends the call with [SyntaxError]; every theorem below that
    depends on this lookup assumes [selector_safe] for the id. *)
Definition selector_safe_char (c : ascii) : bool :=
  negb (existsb (Ascii.eqb c) ["034"; "092"; "010"; "012"; "013"; "000"])%char.

Definition selector_safe (s : string) : bool :=
  forallb selector_safe_char (list_ascii_of_string s).

(** [document.querySelector(`[data-section="${sectionId}"]`)]. *)
Definition querySelector_dataSection (sectionId : string) (d : Document)
  : option (option nat) :=
  if selector_safe sectionId
  then Some (querySelector (sel_dataSection sectionId) d)
  else None.

(** The statements of [switchSection], in order. *)

(* channelItems.forEach(...); sections.forEach(...) *)
Definition clearActive (p : Page) : Outcome :=
  let d := document p in
  let d1 := forEach (channelItems d) (classList_remove "active") d in
  let d2 := forEach (sections d) (classList_remove "active") d1 in
  Returned (with_document p d2).

(* const activeItem = ...; if (activeItem) activeItem.classList.add('active') *)
Definition markItem (sectionId : string) (p : Page) : Outcome :=
  match querySelector_dataSection sectionId (document p) with
  | None => Threw SyntaxError p
  | Some None => Returned p
  | Some (Some i) =>
      Returned (with_document p (alter (classList_add "active") i (document p)))
  end.

(* const activeSection = ...; if (activeSection) { add; scrollTop = 0 } *)
Definition markSection (sectionId : string) (p : Page) : Outcome :=
  match getElementById sectionId (document p) with
  | None => Returned p
  | Some j =>
      let d1 := alter (classList_add "active") j (document p) in
      match querySelector sel_messagesContainer d1 with
      | None => Threw TypeError (with_document p d1)
      | Some c => Returned (with_document p (alter (set_scrollTop 0) c d1))
      end
  end.

(* if (channelNames[sectionId]) channelNameEl.textContent = ... *)
Definition updateLabel (sectionId : string) (p : Page) : Outcome :=
  let v := channelNames_get sectionId in
  if truthy v then
    match channelNameEl (document p) with
    | None => Threw TypeError p
    | Some l =>
        Returned (with_document p (alter (set_textContent (toText v)) l (document p)))
    end
  else Returned p.

(* history.pushState(null, null, `#${sectionId}`) *)
Definition pushHash (sectionId : string) (p : Page) : Outcome :=
  Returned (mkPage (document p) (pushState ("#" ++ sectionId) (history p))).

Definition switchSection (p : Page) (sectionId : string) : Outcome :=
  clearActive p >>= markItem sectionId >>= markSection sectionId
    >>= updateLabel sectionId >>= pushHash sectionId.

(** The hash-change listener: [hashChangeCall] is the argument of the
    call to [switchSection] it makes, if it makes one. *)
Definition slice1 (s : string) : string :=
  match s with
  | EmptyString => EmptyString
  | String _ r => r
  end.

Definition hashChangeCall (p : Page) : option string :=
  let hash := slice1 (location_hash (history p)) in
  if negb (String.eqb hash "") && bool_decide (is_Some (getElementById hash (document p)))
  then Some hash else None.

Definition handleHashChange (p : Page) : Outcome :=
  match hashChangeCall p with
  | Some hash => switchSection p hash
  | None => Returned p
  end.

(* if (window.location.hash) handleHashChange() *)
Definition initialLoad (p : Page) : Outcome :=
  if negb (String.eqb (location_hash (history p)) "") then handleHashChange p
  else Returned p.

(** What the properties below observe: the NavigationItems and the
    content panels that carry the active marker, and the address-bar
    fragment. *)
Definition activeItems (d : Document) : list nat :=
  querySelectorAll (fun e => sel_channelItem e && hasClass "active" e) d.

Definition activeSections (d : Document) : list nat :=
  querySelectorAll sel_activeSection d.

Definition fragment (p : Page) : string := here (history p).

(** The document after the two [forEach] loops of [switchSection], and
    after the two markers are set (scrolling and the label left out). *)
Definition cleared (d : Document) : Document :=
  forEach (sections d) (classList_remove "active")
    (forEach (channelItems d) (classList_remove "active") d).

Definition markedDoc (sectionId : string) (d : Document) : Document :=
  let d2 := cleared d in
  let d3 := match querySelector (sel_dataSection sectionId) d2 with
            | Some i => alter (classList_add "active") i d2
            | None => d2
            end in
  match getElementById sectionId d3 with
  | Some j => alter (classList_add "active") j d3
  | None => d3
  end.

(** Two views of an element: what the selectors of the script look at,
    and the part of it that no statement of the script changes. *)
Definition attrs (e : Element) : string * option string * list string :=
  (el_id e, el_dataSection e, el_classes e).

Definition static (e : Element) : string * option string * list string :=
  (el_id e, el_dataSection e,
   List.filter (fun x => negb (String.eqb "active" x)) (el_classes e)).

(** What an element shows: its text and its scroll offset. *)
Definition content (e : Element) : TextContent * Z :=
  (el_textContent e, el_scrollTop e).

(** The DOM contract the script relies on.  Every content panel has an
    id that can be pasted into the selector as it is, and the id lookup
    finds that panel; the element carrying this id as [data-section] is
    a NavigationItem; and no content panel carries [data-section]. *)
Definition panel_ok (d : Document) (j : nat) : bool :=
  match d !! j with
  | Some e =>
      selector_safe (el_id e)
      && bool_decide (getElementById (el_id e) d = Some j)
      && match querySelector (sel_dataSection (el_id e)) d with
         | Some i => bool_decide (i ∈ channelItems d)
         | None => false
         end
  | None => false
  end.

Definition dom_contract (d : Document) : bool :=
  forallb (panel_ok d) (sections d)
  && forallb (fun e => negb (sel_contentSection e
                             && bool_decide (is_Some (el_dataSection e)))) d.

(** The two optional elements of [switchSection]. *)
Definition optional_elements (d : Document) : bool :=
  bool_decide (is_Some (querySelector sel_messagesContainer d))
  && bool_decide (is_Some (channelNameEl d)).

(** [sectionId] is the id of a content panel. *)
Definition isSectionId (sectionId : string) (d : Document) : bool :=
  existsb (fun j => match d !! j with
                    | Some e => String.eqb (el_id e) sectionId
                    | None => false
                    end) (sections d).

End Router.

(** ** Arrow-key navigation *)

Module Keyboard.
Import Dom Browser Router.

(** [array.indexOf(x)]: the position of the first occurrence, or -1. *)
Fixpoint indexOf (x : nat) (l : list nat) : Z :=
  match l with
  | [] => -1
  | y :: l' =>
      if Nat.eqb x y then 0
      else let r := indexOf x l' in if (r <? 0)%Z then -1 else (r + 1)%Z
  end.

(** [allSections.indexOf(document.querySelector('.content-section.active'))];
    [null] is found nowhere. *)
Definition currentIndex (d : Document) : Z :=
  match querySelector sel_activeSection d with
  | None => -1
  | Some j => indexOf j (sections d)
  end.

(** The remainder operator of JavaScript on integers: the sign follows
    the dividend, and a zero divisor gives NaN ([None]).  A remainder of
    negative zero stands for the index 0, as it does in [allSections[-0]].
    The numbers involved are node counts, far below the range where the
    arithmetic of JavaScript numbers stops being exact. *)
Definition js_rem (a b : Z) : option Z :=
  if (b =? 0)%Z then None else Some (Z.rem a b).

Definition nextIndex (key : string) (d : Document) : option Z :=
  let currentIndex := currentIndex d in
  let len := Z.of_nat (length (sections d)) in
  if String.eqb key "ArrowLeft" then js_rem (currentIndex - 1 + len) len
  else js_rem (currentIndex + 1) len.

(** [allSections[nextIndex]]: [undefined] outside the array. *)
Definition array_get (l : list nat) (k : option Z) : option nat :=
  match k with
  | Some z => if (0 <=? z)%Z then l !! Z.to_nat z else None
  | None => None
  end.

Definition isArrow (key : string) : bool :=
  String.eqb key "ArrowLeft" || String.eqb key "ArrowRight".

(** The argument of the call to [switchSection] that the listener makes
    for this key, if it makes one: [nextSection.id]. *)
Definition keydownCall (key : string) (d : Document) : option string :=
  if isArrow key then
    match array_get (sections d) (nextIndex key d) with
    | Some j => el_id <$> d !! j
    | None => None
    end
  else None.

Definition keydown (key : string) (p : Page) : Outcome :=
  match keydownCall key (document p) with
  | Some id => switchSection p id
  | None => Returned p
  end.

(** The index as the specification gives it, with the mathematical
    modulus: [(i - 1 + N) mod N] for left, [(i + 1) mod N] for right. *)
Definition wrapped (key : string) (i n : Z) : Z :=
  if String.eqb key "ArrowLeft" then ((i - 1 + n) mod n)%Z
  else ((i + 1) mod n)%Z.

(** The page after one key press; an exception in the listener does not
    undo what it did before. *)
Definition press (key : string) (p : Page) : Page := page_of (keydown key p).


(** The page after [n] presses of the same key. *)
Fixpoint presses (n : nat) (key : string) (p : Page) : Page :=
  match n with
  | O => p
  | S n' => press key (presses n' key p)
  end.

End Keyboard.

(** ** The key-sequence matcher *)

Module Konami.

Definition konamiSequence : list string :=
  [ "ArrowUp"; "ArrowUp"; "ArrowDown"; "ArrowDown"; "ArrowLeft";
    "ArrowRight"; "ArrowLeft"; "ArrowRight"; "b"; "a" ].

(** [array.join('')]. *)
Definition join (l : list string) : string := String.concat "" l.

(** [array.slice(-10)]: the last ten elements, or all of them. *)
Definition slice_last10 (l : list string) : list string :=
  drop (length l - 10) l.

(** One [keydown] event: the new value of [konamiCode] and whether the
    animation is started. *)
Definition keydown (konamiCode : list string) (key : string)
  : list string * bool :=
  let konamiCode := slice_last10 (konamiCode ++ [key]) in
  (konamiCode, String.eqb (join konamiCode) (join konamiSequence)).

(** A stream of key presses: the final buffer and, per key, whether it
    started the animation. *)
Fixpoint run (konamiCode : list string) (keys : list string)
  : list string * list bool :=
  match keys with
  | [] => (konamiCode, [])
  | k :: keys' =>
      let '(c, t) := keydown konamiCode k in
      let '(c', ts) := run c keys' in
      (c', t :: ts)
  end.

Definition buffer_after (keys : list string) : list string :=
  fst (run [] keys).

Definition triggers (konamiCode : list string) (keys : list string) : nat :=
  length (List.filter id (snd (run konamiCode keys))).

(** Whether this key, pressed with this buffer, starts the animation. *)
Definition fires (konamiCode : list string) (key : string) : bool :=
  snd (keydown konamiCode key).

(** The last character of a string. *)
Fixpoint last_char (s : string) : option ascii :=
  match s with
  | EmptyString => None
  | String c EmptyString => Some c
  | String _ r => last_char r
  end.

(** A key whose text does not end in the letter a starts nothing. *)
Definition quiet (k : string) : bool :=
  match last_char k with
  | Some x => negb (Ascii.eqb x "a")
  | None => false
  end.

(** Key values as keyboards send them for this sequence: a single
    character, or the name of an arrow key.  [plainKey] also admits any
    text that does not occur inside the joined text of the sequence,
    such as [Enter] or [Shift]. *)
Definition arrows : list string :=
  [ "ArrowUp"; "ArrowDown"; "ArrowLeft"; "ArrowRight" ].

Definition atom (k : string) : bool :=
  Nat.eqb (String.length k) 1 || existsb (String.eqb k) arrows.

Fixpoint strip_prefix (a t : string) : option string :=
  match a with
  | EmptyString => Some t
  | String c a' =>
      match t with
      | String c' t' => if Ascii.eqb c c' then strip_prefix a' t' else None
      | EmptyString => None
      end
  end.

Fixpoint occurs (k t : string) : bool :=
  match strip_prefix k t with
  | Some _ => true
  | None =>
      match t with
      | EmptyString => false
      | String _ t' => occurs k t'
      end
  end.

Definition plainKey (k : string) : bool :=
  atom k || negb (occurs k (join konamiSequence)).

(** All the ways to write [t] as the joined text of at most [budget]
    keys that are single characters or arrow names. *)
Fixpoint parses (budget : nat) (t : string) : list (list string) :=
  match budget with
  | O => match t with EmptyString => [[]] | _ => [] end
  | S b =>
      match t with
      | EmptyString => [[]]
      | String c t' => List.map (cons (String c EmptyString)) (parses b t')
      end
      ++ List.flat_map
           (fun a => match strip_prefix a t with
                     | Some t' => List.map (cons a) (parses b t')
                     | None => []
                     end) arrows
  end.

(** Nine key presses: the first carries the text of two presses of the
    up arrow, the rest are the sequence from its third key on. *)
Definition doubledUp : list string :=
  [ "ArrowUpArrowUp"; "ArrowDown"; "ArrowDown"; "ArrowLeft";
    "ArrowRight"; "ArrowLeft"; "ArrowRight"; "b" ].

End Konami.

(** ** A page with the shape the script expects *)

Module Sample.
Import Dom Browser Router.

Definition navItem (s : string) (active : bool) : Element :=
  mkElement "" ("channel-item" :: if active then ["active"] else [])
            (Some s) (Text s) 0.

Definition panel (s : string) (active : bool) : Element :=
  mkElement s ("content-section" :: if active then ["active"] else [])
            None (Text "") 0.

Definition label : Element :=
  mkElement "channel-name" [] None (Text "# welcome") 0.

Definition container (top : Z) : Element :=
  mkElement "" ["messages-container"] None (Text "") top.

Definition doc : Document :=
  [ navItem "hero" true; navItem "demo" false; navItem "features" false;
    navItem "how-it-works" false; navItem "setup" false;
    label; container 120;
    panel "hero" true; panel "demo" false; panel "features" false;
    panel "how-it-works" false; panel "setup" false ].

Definition page : Page := mkPage doc (mkHistory [] "" []).

(** The same page opened at the fragment of the label's id. *)
Definition pageAtLabel : Page := mkPage doc (mkHistory [] "#channel-name" []).

(** The same page without the scroll container, and without the label. *)
Definition docNoContainer : Document :=
  [ navItem "hero" true; navItem "demo" false; label;
    panel "hero" true; panel "demo" false ].

Definition docNoLabel : Document :=
  [ navItem "hero" true; navItem "demo" false; container 120;
    panel "hero" true; panel "demo" false ].

(** The same page before any panel is marked active. *)
Definition docIdle : Document :=
  [ navItem "hero" false; navItem "demo" false; navItem "features" false;
    navItem "how-it-works" false; navItem "setup" false;
    label; container 120;
    panel "hero" false; panel "demo" false; panel "features" false;
    panel "how-it-works" false; panel "setup" false ].

Definition pageIdle : Page := mkPage docIdle (mkHistory [] "" []).

Definition pageNoContainer : Page := mkPage docNoContainer (mkHistory [] "" []).
Definition pageNoLabel : Page := mkPage docNoLabel (mkHistory [] "" []).
End Sample.

(** ** The effects of [switchSection], read off the starting document *)

Module Effects.
Import Dom Browser Router.

(** The label statement and the push of [switchSection] on a document
    [d4], with the label looked up in the starting document [d]. *)
Definition labelStep (sectionId : string) (d d4 : Document) (h : History)
  : Outcome :=
  let v := channelNames_get sectionId in
  if truthy v then
    match channelNameEl d with
    | None => Threw TypeError (mkPage d4 h)
    | Some l =>
        Returned (mkPage (alter (set_textContent (toText v)) l d4)
                         (pushState ("#" ++ sectionId) h))
    end
  else Returned (mkPage d4 (pushState ("#" ++ sectionId) h)).

(** Whether the call gets as far as the scroll reset, and as the label. *)
Definition resetsScroll (sectionId : string) (d : Document) : bool :=
  bool_decide (is_Some (getElementById sectionId d))
  && bool_decide (is_Some (querySelector sel_messagesContainer d)).

Definition reachesLabel (sectionId : string) (d : Document) : bool :=
  negb (bool_decide (is_Some (getElementById sectionId d)))
  || bool_decide (is_Some (querySelector sel_messagesContainer d)).

Definition writesLabel (sectionId : string) (d : Document) : bool :=
  reachesLabel sectionId d
  && truthy (channelNames_get sectionId)
  && bool_decide (is_Some (channelNameEl d)).

(** The call returns: no statement dereferences a missing element. *)
Definition completes (sectionId : string) (d : Document) : bool :=
  reachesLabel sectionId d
  && (negb (truthy (channelNames_get sectionId))
      || bool_decide (is_Some (channelNameEl d))).

(** [<[i:=x]>] at the node an optional lookup found. *)
Definition setAt {A : Type} (o : option nat) (x : A) (l : list A) : list A :=
  match o with
  | Some i => <[i:=x]> l
  | None => l
  end.

(** What [markedDoc] does to the element at node [x]: the two loops
    take the marker off the NavigationItems and the panels, then the
    element the [data-section] lookup found ([i]) and the one the id
    lookup found ([j]) get it. *)
Definition markE (items secs : list nat) (i j : option nat) (x : nat)
    (e : Element) : Element :=
  let e1 := if bool_decide (x ∈ items) then classList_remove "active" e else e in
  let e2 := if bool_decide (x ∈ secs) then classList_remove "active" e1 else e1 in
  let e3 := if bool_decide (i = Some x) then classList_add "active" e2 else e2 in
  if bool_decide (j = Some x) then classList_add "active" e3 else e3.

(** What [switchSection] does to the element at node [x], whether it
    returns or throws. *)
Definition finalE (sectionId : string) (d : Document) (x : nat)
    (e : Element) : Element :=
  let e1 := markE (channelItems d) (sections d)
                  (querySelector (sel_dataSection sectionId) d)
                  (getElementById sectionId d) x e in
  let e2 := if resetsScroll sectionId d
               && bool_decide (querySelector sel_messagesContainer d = Some x)
            then set_scrollTop 0 e1 else e1 in
  if writesLabel sectionId d && bool_decide (channelNameEl d = Some x)
  then set_textContent (toText (channelNames_get sectionId)) e2 else e2.

(** A run of calls, each on the page the one before left. *)
Definition switchAll (ids : list string) (p : Page) : Page :=
  foldl (fun q id => page_of (switchSection q id)) p ids.

End Effects.

(** ** Click listeners *)

Module Clicks.
Import Dom Browser Router Effects.

(** What the click listeners look at besides the fields of [Element]:
    the tag name (in lower case, as [localName] gives it) and the [href]
    attribute.  The markup of the document is the list of these, node by
    node, in the order of the document. *)
Record Markup := mkMarkup {
  tagName : string;
  attr_href : option string
}.

Fixpoint findFrom (n : nat) (sel : Markup -> bool) (mk : list Markup)
  : option nat :=
  match mk with
  | [] => None
  | m :: mk' => if sel m then Some n else findFrom (S n) sel mk'
  end.

(** [href.startsWith('#')]. *)
Definition startsWithHash (h : string) : bool :=
  match h with
  | String c _ => Ascii.eqb c "#"
  | EmptyString => false
  end.

(* a[href="#demo"] *)
Definition sel_demoLink (m : Markup) : bool :=
  String.eqb (tagName m) "a"
  && match attr_href m with
     | Some h => String.eqb h "#demo"
     | None => false
     end.

(* a[href^="#"] *)
Definition sel_hashLink (m : Markup) : bool :=
  String.eqb (tagName m) "a"
  && match attr_href m with
     | Some h => startsWithHash h
     | None => false
     end.

(** [const demoBtn = document.querySelector('a[href="#demo"]')]. *)
Definition demoBtn (mk : list Markup) : option nat := findFrom 0 sel_demoLink mk.

(** The listeners that a click on node [x] runs, in the order in which
    the script registered them, each given as the ids it passes to
    [switchSection]: the listener of the NavigationItems, the one of
    [demoBtn], and the one of the links whose [href] starts with [#].
    (The listeners of the two header buttons only open a window.) *)
Definition itemCalls (d : Document) (x : nat) : list string :=
  if bool_decide (x ∈ channelItems d) then
    match d !! x with
    | Some e => match el_dataSection e with Some v => [v] | None => [] end
    | None => []
    end
  else [].

Definition demoCalls (mk : list Markup) (x : nat) : list string :=
  if bool_decide (demoBtn mk = Some x) then ["demo"] else [].

Definition linkCalls (mk : list Markup) (x : nat) : list string :=
  match mk !! x with
  | Some m =>
      if sel_hashLink m then
        match attr_href m with
        | Some href =>
            if startsWithHash href && (1 <? String.length href)%nat
            then [slice1 href] else []
        | None => []
        end
      else []
  | None => []
  end.

Definition clickCalls (mk : list Markup) (d : Document) (x : nat) : list string :=
  itemCalls d x ++ demoCalls mk x ++ linkCalls mk x.

(** The page after a click on node [x]: every listener runs on the page
    the one before left, also after one that threw. *)
Definition click (mk : list Markup) (x : nat) (p : Page) : Page :=
  switchAll (clickCalls mk (document p) x) p.

(** The browser going one entry back.  When the fragment of the entry it
    arrives at differs from the one it left, a [hashchange] event is
    fired, and the listener of the script runs. *)
Definition traverseBack (h : History) : History :=
  match back h with
  | b :: bs => mkHistory bs b (here h :: forward h)
  | [] => h
  end.

Definition goBack (p : Page) : Page :=
  let q := mkPage (document p) (traverseBack (history p)) in
  if String.eqb (here (history q)) (here (history p)) then q
  else page_of (handleHashChange q).

End Clicks.

(** ** A page with links *)

Module Links.
Import Dom Browser Router Clicks.

Definition plain : Markup := mkMarkup "div" None.
Definition link (href : string) : Markup := mkMarkup "a" (Some href).

(** The sample page with two more nodes at its end: a link to [#demo]
    and a link to [#top], an id that no element has. *)
Definition doc : Document :=
  Sample.doc ++ [ mkElement "" ["btn-primary"] None (Text "Try it") 0;
                  mkElement "" [] None (Text "Top") 0 ].

Definition markup : list Markup :=
  [ plain; plain; plain; plain; plain; plain; plain; plain; plain; plain;
    plain; plain; link "#demo"; link "#top" ].

(** The same page with the NavigationItems written as links to their
    panels. *)
Definition markupNavLinks : list Markup :=
  [ link "#hero"; link "#demo"; link "#features"; link "#how-it-works";
    link "#setup"; plain; plain; plain; plain; plain; plain; plain;
    link "#demo"; link "#top" ].

Definition page : Page := mkPage doc (mkHistory [] "" []).

(** A page on which two NavigationItems carry the same [data-section]. *)
Definition docTwins : Document :=
  [ Sample.navItem "hero" true; Sample.navItem "hero" false;
    Sample.label; Sample.container 0; Sample.panel "hero" true ].

Definition markupTwins : list Markup := [ plain; plain; plain; plain; plain ].

Definition pageTwins : Page := mkPage docTwins (mkHistory [] "" []).

(** The sample page after a visit of [#demo] and then of [#features]. *)
Definition pageVisited : Page :=
  mkPage Sample.doc (mkHistory ["#demo"; ""] "#features" []).

End Links.

(** ** The menu toggle and the sparkle *)

Module Widgets.
Import Dom Browser.

(** [classList.toggle(c)]. *)
Definition classList_toggle (c : string) (e : Element) : Element :=
  if hasClass c e then classList_remove c e else classList_add c e.

Definition sel_sidebar : Selector := hasClass "sidebar".

(** The click listener of the menu toggle:
    [document.querySelector('.sidebar').classList.toggle('open')]. *)
Definition toggleClick (p : Page) : Outcome :=
  match querySelector sel_sidebar (document p) with
  | None => Threw TypeError p
  | Some s =>
      Returned (with_document p (alter (classList_toggle "open") s (document p)))
  end.

(** A button with the sparkle listener: the sparkle nodes attached to it
    (each created node has a number of its own) and the number the next
    one gets. *)
Record Button := mkButton {
  sparkles : list nat;
  next : nat
}.

Inductive ButtonEvent :=
  | MouseEnter
  | Timeout (k : nat).   (* the timer set when sparkle [k] was created *)

(* if (this.querySelector('.sparkle')) return; ... this.appendChild(sparkle) *)
Definition mouseenter (b : Button) : Button :=
  match sparkles b with
  | _ :: _ => b
  | [] => mkButton [next b] (S (next b))
  end.

(* setTimeout(() => sparkle.remove(), 1000) *)
Definition timeout (k : nat) (b : Button) : Button :=
  mkButton (List.filter (fun s => negb (Nat.eqb s k)) (sparkles b)) (next b).

Definition buttonStep (b : Button) (ev : ButtonEvent) : Button :=
  match ev with
  | MouseEnter => mouseenter b
  | Timeout k => timeout k b
  end.

Definition buttonRun (evs : list ButtonEvent) (b : Button) : Button :=
  foldl buttonStep b evs.

(** The sample page with a sidebar around its NavigationItems. *)
Definition docSidebar : Document :=
  mkElement "" ["sidebar"] None (Text "") 0 :: Sample.doc.

Definition pageSidebar : Page := mkPage docSidebar (mkHistory [] "" []).

End Widgets.

(** * Properties *)

(** ** The key-sequence matcher *)

Module KonamiFacts.
Import Konami.

Lemma join_cons (x : string) (l : list string) : join (x :: l) = (x ++ join l)%string.
Proof.
  unfold join. destruct l as [|y l]; simpl.
  - induction x as [|c x IH]; simpl; [reflexivity | now rewrite <- IH].
  - reflexivity.
Qed.

Lemma append_assoc (a b c : string) : ((a ++ b) ++ c = a ++ (b ++ c))%string.
Proof. induction a as [|x a IH]; simpl; [reflexivity | now rewrite IH]. Qed.

Lemma append_empty_r (a : string) : (a ++ "")%string = a.
Proof. induction a as [|x a IH]; simpl; [reflexivity | now rewrite IH]. Qed.

Lemma join_app (l m : list string) : join (l ++ m) = (join l ++ join m)%string.
Proof.
  induction l as [|x l IH]; [reflexivity|].
  change ((x :: l) ++ m) with (x :: (l ++ m)).
  now rewrite !join_cons, IH, append_assoc.
Qed.

Lemma join_singleton (x : string) : join [x] = x.
Proof. reflexivity. Qed.

Lemma append_length (a b : string) :
  String.length (a ++ b)%string = String.length a + String.length b.
Proof. induction a as [|x a IH]; simpl; [reflexivity | now rewrite IH]. Qed.

Lemma append_inv_head (a b c : string) : (a ++ b = a ++ c)%string -> b = c.
Proof. induction a as [|x a IH]; simpl; intros H; [exact H | injection H; auto]. Qed.

Lemma append_inv_tail (a b c : string) : (a ++ c = b ++ c)%string -> a = b.
Proof.
  revert b. induction a as [|x a IH]; intros [|y b] H; simpl in *.
  - reflexivity.
  - apply (f_equal String.length) in H. simpl in H.
    rewrite append_length in H. lia.
  - apply (f_equal String.length) in H. simpl in H.
    rewrite append_length in H. lia.
  - injection H as -> H. f_equal. now apply IH.
Qed.

Lemma last_char_append (a b : string) :
  b <> "" -> last_char (a ++ b)%string = last_char b.
Proof.
  intros Hb. induction a as [|x a IH]; [reflexivity|].
  simpl. rewrite IH. destruct (a ++ b)%string as [|y r] eqn:E; [|reflexivity].
  destruct a; simpl in E; [congruence | discriminate].
Qed.

(** [slice(-10)] after a [push]. *)
Lemma slice_last10_length (l : list string) : length (slice_last10 l) <= 10.
Proof. unfold slice_last10. rewrite length_drop. lia. Qed.

Lemma slice_last10_short (l : list string) :
  length l <= 10 -> slice_last10 l = l.
Proof.
  intros H. unfold slice_last10.
  replace (length l - 10) with 0 by lia. reflexivity.
Qed.

Lemma slice_last10_app (l m : list string) :
  slice_last10 (slice_last10 l ++ m) = slice_last10 (l ++ m).
Proof.
  unfold slice_last10.
  rewrite <- (drop_app_le l m) by lia.
  rewrite drop_drop. f_equal.
  rewrite length_drop, !length_app. lia.
Qed.

Lemma slice_last10_snoc (l : list string) (k : string) :
  exists w, slice_last10 (l ++ [k]) = w ++ [k].
Proof.
  unfold slice_last10. exists (drop (length (l ++ [k]) - 10) l).
  apply drop_app_le. rewrite length_app. simpl. lia.
Qed.

Lemma slice_last10_suffix (l m : list string) :
  length m = 10 -> slice_last10 (l ++ m) = m.
Proof.
  intros H. unfold slice_last10.
  rewrite length_app, H. replace (length l + 10 - 10) with (length l) by lia.
  apply drop_app_length.
Qed.

(** The buffer after a stream of key presses. *)
Lemma run_fst (c : list string) (keys : list string) :
  keys <> [] -> fst (run c keys) = slice_last10 (c ++ keys).
Proof.
  revert c. induction keys as [|k keys IH]; intros c Hne; [congruence|].
  simpl. destruct (run (slice_last10 (c ++ [k])) keys) as [c' ts] eqn:E.
  simpl. destruct keys as [|k' keys].
  - simpl in E. now inversion E.
  - specialize (IH (slice_last10 (c ++ [k]))). rewrite E in IH. simpl in IH.
    rewrite IH by discriminate. rewrite slice_last10_app.
    now rewrite <- app_assoc.
Qed.

Lemma run_app (c : list string) (k1 k2 : list string) :
  run c (k1 ++ k2) =
  (fst (run (fst (run c k1)) k2), snd (run c k1) ++ snd (run (fst (run c k1)) k2)).
Proof.
  revert c. induction k1 as [|k k1 IH]; intros c; simpl.
  - now destruct (run c k2).
  - rewrite IH.
    destruct (run (slice_last10 (c ++ [k])) k1) as [c1 t1]. reflexivity.
Qed.

Lemma run_last (c : list string) (keys : list string) :
  keys <> [] ->
  last (snd (run c keys)) =
  Some (String.eqb (join (slice_last10 (c ++ keys))) (join konamiSequence)).
Proof.
  revert c. induction keys as [|k keys IH]; intros c Hne; [congruence|].
  simpl. destruct (run (slice_last10 (c ++ [k])) keys) as [c' ts] eqn:E.
  simpl. destruct keys as [|k' keys].
  - simpl in E. inversion E. reflexivity.
  - specialize (IH (slice_last10 (c ++ [k]))). rewrite E in IH. simpl in IH.
    destruct ts as [|t ts]; [simpl in E; destruct (run _ keys); discriminate|].
    change (last (_ :: t :: ts)) with (last (t :: ts)).
    rewrite IH by discriminate. rewrite slice_last10_app.
    now rewrite <- app_assoc.
Qed.

Lemma buffer_after_spec (keys : list string) :
  buffer_after keys = slice_last10 keys.
Proof.
  unfold buffer_after. destruct keys as [|k keys]; [reflexivity|].
  now rewrite run_fst by discriminate.
Qed.

Lemma fires_spec (c : list string) (k : string) :
  fires c k = true <-> join (slice_last10 (c ++ [k])) = join konamiSequence.
Proof. unfold fires, keydown. simpl. apply String.eqb_eq. Qed.

Lemma fires_quiet (c : list string) (k : string) :
  quiet k = true -> fires c k = false.
Proof.
  unfold quiet. intros Hq. destruct (fires c k) eqn:F; [|reflexivity].
  apply fires_spec in F.
  destruct (slice_last10_snoc c k) as [w Hw]. rewrite Hw in F.
  rewrite join_app, join_singleton in F.
  apply (f_equal last_char) in F. rewrite last_char_append in F.
  - rewrite F in Hq. discriminate.
  - intros ->. discriminate.
Qed.

Lemma run_quiet (c : list string) (keys : list string) :
  forallb quiet keys = true ->
  snd (run c keys) = repeat false (length keys).
Proof.
  revert c. induction keys as [|k keys IH]; intros c H; [reflexivity|].
  simpl in H. apply andb_prop in H as [Hk H].
  simpl. specialize (IH (slice_last10 (c ++ [k])) H).
  destruct (run (slice_last10 (c ++ [k])) keys) as [c' ts]. simpl in *.
  rewrite IH. f_equal. apply (fires_quiet c k Hk).
Qed.

Lemma join_insert_inj (l : list string) (i : nat) (s w : string) :
  l !! i = Some s -> join (<[i:=w]> l) = join l -> w = s.
Proof.
  intros Hs H.
  pose proof (lookup_lt_Some _ _ _ Hs) as Hlt.
  rewrite (insert_take_drop l i w Hlt) in H.
  rewrite <- (take_drop_middle l i s Hs) in H at 3.
  rewrite !join_app, !join_cons in H.
  apply append_inv_head in H. now apply append_inv_tail in H.
Qed.

Lemma run_sequence (c : list string) :
  snd (run c konamiSequence) = repeat false 9 ++ [true].
Proof.
  change konamiSequence with (take 9 konamiSequence ++ ["a"]).
  rewrite run_app. cbn [snd].
  rewrite run_quiet by reflexivity. f_equal.
  rewrite run_fst by discriminate.
  simpl. f_equal. apply String.eqb_eq. f_equal.
  rewrite slice_last10_app, <- app_assoc.
  now apply slice_last10_suffix.
Qed.

(** Joined texts and the keys they are made of. *)
Lemma strip_prefix_app (a r : string) : strip_prefix a (a ++ r) = Some r.
Proof.
  induction a as [|c a IH]; [reflexivity|].
  cbn [append strip_prefix]. now rewrite Ascii.eqb_refl.
Qed.

Lemma occurs_app (a k b : string) : occurs k (a ++ (k ++ b)) = true.
Proof.
  induction a as [|c a IH].
  - cbn [append]. destruct (k ++ b)%string eqn:E; cbn [occurs];
      rewrite <- E, strip_prefix_app; reflexivity.
  - cbn [append occurs]. rewrite IH. now destruct (strip_prefix k _).
Qed.

Lemma join_elem_occurs (w : list string) (k : string) :
  k ∈ w -> occurs k (join w) = true.
Proof.
  intros Hk. apply list_elem_of_split in Hk as (w1 & w2 & ->).
  rewrite join_app, join_cons. apply occurs_app.
Qed.

Lemma length_one (k : string) :
  String.length k = 1%nat -> exists c, k = String c EmptyString.
Proof.
  destruct k as [|c [|c' k]]; cbn; intros H; try discriminate. eauto.
Qed.

Lemma parses_complete (b : nat) (w : list string) (t : string) :
  length w <= b -> forallb atom w = true -> join w = t -> In w (parses b t).
Proof.
  revert w t. induction b as [|b IH]; intros w t Hlen Hat Hjoin.
  - destruct w; [|cbn in Hlen; lia]. subst t. now left.
  - destruct w as [|k w].
    { subst t. cbn [parses]. apply in_or_app. left. now left. }
    cbn [forallb] in Hat. apply andb_prop in Hat as [Hk Hw].
    cbn [length] in Hlen. rewrite join_cons in Hjoin.
    specialize (IH w (join w) ltac:(lia) Hw eq_refl).
    cbn [parses]. apply in_or_app.
    unfold atom in Hk. apply orb_prop in Hk as [Hk|Hk].
    + left. apply Nat.eqb_eq in Hk. apply length_one in Hk as [c ->].
      subst t. cbn [append]. now apply in_map.
    + right. apply existsb_exists in Hk as (a & Ha & Hka).
      apply String.eqb_eq in Hka. subst a.
      apply in_flat_map. exists k. split; [exact Ha|].
      subst t. rewrite strip_prefix_app. now apply in_map.
Qed.

Lemma plain_window_is_sequence (w : list string) :
  length w <= 10 -> forallb plainKey w = true ->
  join w = join konamiSequence -> w = konamiSequence.
Proof.
  intros Hlen Hplain Hjoin.
  assert (Hat : forallb atom w = true).
  { apply forallb_forall. intros k Hk.
    rewrite forallb_forall in Hplain. specialize (Hplain k Hk).
    unfold plainKey in Hplain. apply orb_prop in Hplain as [H|H]; [exact H|].
    apply list_elem_of_In in Hk.
    rewrite <- Hjoin, (join_elem_occurs w k Hk) in H. discriminate. }
  pose proof (parses_complete 10 w _ Hlen Hat Hjoin) as Hin.
  vm_compute in Hin. destruct Hin as [Hin|[]]. now symmetry.
Qed.

(** C9: after every keydown event the buffer of the matcher holds at most
    ten keys, and they are the most recent (at most ten) keys pressed,
    however many keys the stream has. *)
Theorem buffer_is_last_ten (keys : list string) :
  buffer_after keys = drop (length keys - 10) keys
  /\ length (buffer_after keys) <= 10.
Proof.
  rewrite buffer_after_spec. split; [reflexivity|].
  apply slice_last10_length.
Qed.

(** The code compares joined texts, not arrays. *)
Lemma fires_joined_window (keys : list string) (k : string) :
  fires (buffer_after keys) k = true <->
  join (slice_last10 (keys ++ [k])) = join konamiSequence.
Proof.
  rewrite fires_spec, buffer_after_spec. now rewrite slice_last10_app.
Qed.

Lemma run_single (c : list string) (k : string) :
  snd (run c [k]) = [fires c k].
Proof. reflexivity. Qed.

(** At most ten keyboard keys pressed after the page has loaded start
    nothing unless they are the sequence. *)
Lemma run_fresh_attempt (keys : list string) :
  length keys <= 10 -> forallb plainKey keys = true ->
  keys <> konamiSequence ->
  snd (run [] keys) = repeat false (length keys).
Proof.
  induction keys as [|x keys IH] using rev_ind; intros Hlen Hplain Hne;
    [reflexivity|].
  rewrite length_app in Hlen. cbn [length] in Hlen.
  rewrite forallb_app in Hplain. apply andb_prop in Hplain as [Hp Hx].
  rewrite run_app. cbn [snd].
  rewrite IH; [| lia | exact Hp |].
  2:{ intros E. subst keys. cbn in Hlen. lia. }
  rewrite length_app, repeat_app. f_equal.
  rewrite run_single. cbn [length repeat]. f_equal.
  destruct (fires (fst (run [] keys)) x) eqn:F; [|reflexivity].
  exfalso. apply Hne.
  apply (fires_joined_window keys x) in F.
  rewrite slice_last10_short in F by (rewrite length_app; cbn [length]; lia).
  apply plain_window_is_sequence.
  - rewrite length_app. cbn [length]. lia.
  - rewrite forallb_app, Hp. exact Hx.
  - exact F.
Qed.

Lemma plainKey_insert (i : nat) (w : string) :
  plainKey w = true -> forallb plainKey (<[i:=w]> konamiSequence) = true.
Proof.
  intros Hw. apply forallb_forall. intros k Hk.
  apply list_elem_of_In, list_elem_of_lookup in Hk as [j Hj].
  apply list_lookup_insert_Some in Hj as [(_ & <- & _) | (_ & Hj)];
    [exact Hw|].
  assert (Hall : forallb plainKey konamiSequence = true) by (vm_compute; reflexivity).
  rewrite forallb_forall in Hall. apply Hall.
  apply list_elem_of_In. now apply (list_elem_of_lookup_2 _ j).
Qed.

(** C8: for every stream of key presses whose key values are those a
    keyboard sends (single characters, arrow names and, besides, any
    text that does not occur inside the joined sequence), the key [k]
    pressed after the keys [keys] starts the animation exactly when the
    window of the at most ten most recent keys is the designated
    sequence; a window that is the sequence starts it whatever the key
    values are.  Typing the sequence once, after any keys, starts the
    animation exactly once, at the last key.  An attempt with nine right
    keys and one wrong key does not start it at its last key, whatever
    was typed before, and when it is typed with keyboard keys after the
    page has loaded no key of it starts it.  The sequence typed after
    such an attempt starts it, once. *)
Theorem matcher_fires_on_window :
  (forall keys k,
      forallb plainKey (slice_last10 (keys ++ [k])) = true ->
      (fires (buffer_after keys) k = true <->
       slice_last10 (keys ++ [k]) = konamiSequence))
  /\ (forall keys k,
      slice_last10 (keys ++ [k]) = konamiSequence ->
      fires (buffer_after keys) k = true)
  /\ (forall c,
      snd (run c konamiSequence) = repeat false 9 ++ [true]
      /\ triggers c konamiSequence = 1)
  /\ (forall c i s w,
      konamiSequence !! i = Some s -> w <> s ->
      last (snd (run c (<[i:=w]> konamiSequence))) = Some false)
  /\ (forall i s w,
      konamiSequence !! i = Some s -> w <> s -> plainKey w = true ->
      snd (run [] (<[i:=w]> konamiSequence)) = repeat false 10
      /\ triggers [] (<[i:=w]> konamiSequence) = 0)
  /\ (forall c i w,
      snd (run (fst (run c (<[i:=w]> konamiSequence))) konamiSequence)
      = repeat false 9 ++ [true]
      /\ triggers (fst (run c (<[i:=w]> konamiSequence))) konamiSequence = 1).
Proof.
  assert (Honce : forall c,
      snd (run c konamiSequence) = repeat false 9 ++ [true]
      /\ triggers c konamiSequence = 1).
  { intros c. unfold triggers. rewrite run_sequence. split; reflexivity. }
  assert (Hif : forall keys k,
      slice_last10 (keys ++ [k]) = konamiSequence ->
      fires (buffer_after keys) k = true).
  { intros keys k H. apply fires_joined_window. now rewrite H. }
  split_and!.
  - intros keys k Hplain. split; [|apply Hif].
    intros H. apply fires_joined_window in H.
    apply plain_window_is_sequence;
      [apply slice_last10_length | exact Hplain | exact H].
  - exact Hif.
  - exact Honce.
  - intros c i s w Hs Hw.
    pose proof (lookup_lt_Some _ _ _ Hs) as Hlt.
    rewrite run_last.
    2:{ intros E. apply (f_equal length) in E.
        rewrite length_insert in E. discriminate E. }
    f_equal. apply String.eqb_neq. intros E.
    rewrite slice_last10_suffix in E by now rewrite length_insert.
    apply Hw. now apply (join_insert_inj konamiSequence i).
  - intros i s w Hs Hw Hplain.
    assert (Hrun : snd (run [] (<[i:=w]> konamiSequence)) = repeat false 10).
    { rewrite run_fresh_attempt.
      - now rewrite length_insert.
      - rewrite length_insert. reflexivity.
      - now apply plainKey_insert.
      - intros E. apply Hw.
        apply (join_insert_inj konamiSequence i s w Hs). now rewrite E. }
    split; [exact Hrun|]. unfold triggers. rewrite Hrun. reflexivity.
  - intros c i w. apply Honce.
Qed.

Lemma matcher_fires_on_window_witness :
  fires (buffer_after ("x" :: take 9 konamiSequence)) "a" = true <->
  slice_last10 (("x" :: take 9 konamiSequence) ++ ["a"]) = konamiSequence.
Proof.
  apply (proj1 matcher_fires_on_window ("x" :: take 9 konamiSequence) "a").
  reflexivity.
Defined.

(** The listener reads the key text of every [keydown] event, also of
    one that a script dispatches with a text no keyboard sends.  The nine
    events of [doubledUp ++ ["a"]] carry the joined text of the sequence
    in a window that is not the sequence, and start the animation. *)
Example joined_text_of_other_keys :
  fires (buffer_after doubledUp) "a" = true
  /\ fst (keydown (buffer_after doubledUp) "a") <> konamiSequence
  /\ forallb plainKey (doubledUp ++ ["a"]) = false.
Proof. split_and!; [reflexivity | discriminate | reflexivity]. Qed.

End KonamiFacts.

(** ** Queries and updates on the document *)

Module DomFacts.
Import Dom.

Lemma elem_of_matchesFrom (sel : Selector) (d : Document) (n i : nat) :
  i ∈ matchesFrom n sel d <->
  n <= i /\ exists e, d !! (i - n) = Some e /\ sel e = true.
Proof.
  revert n. induction d as [|e d IH]; intros n; simpl.
  - split; [intros H; inversion H | intros (_ & e & H & _); discriminate].
  - destruct (sel e) eqn:Hsel.
    + rewrite elem_of_cons, IH. split.
      * intros [-> | (Hle & e' & Hl & He')].
        -- split; [lia|]. exists e. now rewrite Nat.sub_diag.
        -- split; [lia|]. exists e'. split; [|exact He'].
           replace (i - n) with (S (i - S n)) by lia. exact Hl.
      * intros (Hle & e' & Hl & He').
        destruct (decide (i = n)) as [->|Hne]; [now left | right].
        split; [lia|]. exists e'. split; [|exact He'].
        replace (i - n) with (S (i - S n)) in Hl by lia. exact Hl.
    + rewrite IH. split.
      * intros (Hle & e' & Hl & He'). split; [lia|]. exists e'.
        split; [|exact He'].
        replace (i - n) with (S (i - S n)) by lia. exact Hl.
      * intros (Hle & e' & Hl & He').
        destruct (decide (i = n)) as [->|Hne].
        { rewrite Nat.sub_diag in Hl. simpl in Hl. congruence. }
        split; [lia|]. exists e'. split; [|exact He'].
        replace (i - n) with (S (i - S n)) in Hl by lia. exact Hl.
Qed.

Lemma elem_of_querySelectorAll (sel : Selector) (d : Document) (i : nat) :
  i ∈ querySelectorAll sel d <-> exists e, d !! i = Some e /\ sel e = true.
Proof.
  unfold querySelectorAll. rewrite elem_of_matchesFrom, Nat.sub_0_r.
  split; [intros [_ H]; exact H | intros H; split; [lia | exact H]].
Qed.

Lemma NoDup_matchesFrom (sel : Selector) (d : Document) (n : nat) :
  NoDup (matchesFrom n sel d).
Proof.
  revert n. induction d as [|e d IH]; intros n; simpl; [constructor|].
  destruct (sel e); [|apply IH].
  constructor; [|apply IH].
  rewrite elem_of_matchesFrom. lia.
Qed.

Lemma matchesFrom_nil (sel : Selector) (d : Document) (n : nat) :
  (forall x e, d !! x = Some e -> sel e = false) -> matchesFrom n sel d = [].
Proof.
  revert n. induction d as [|e d IH]; intros n H; simpl; [reflexivity|].
  rewrite (H 0 e eq_refl). apply IH. intros x e' Hx. apply (H (S x) e' Hx).
Qed.

(** A selector that exactly one node matches. *)
Lemma matchesFrom_singleton (sel : Selector) (d : Document) (n k : nat) (e : Element) :
  d !! k = Some e -> sel e = true ->
  (forall x e', d !! x = Some e' -> sel e' = true -> x = k) ->
  matchesFrom n sel d = [n + k].
Proof.
  revert n k. induction d as [|a d IH]; intros n k Hk He Huniq; [discriminate|].
  simpl. destruct k as [|k].
  - simpl in Hk. injection Hk as ->. rewrite He. rewrite Nat.add_0_r. f_equal.
    apply matchesFrom_nil. intros x e' Hx.
    destruct (sel e') eqn:E; [|reflexivity].
    specialize (Huniq (S x) e' Hx E). discriminate.
  - destruct (sel a) eqn:Ha.
    { specialize (Huniq 0 a eq_refl Ha). discriminate. }
    rewrite (IH (S n) k Hk He).
    + f_equal. lia.
    + intros x e' Hx He'. specialize (Huniq (S x) e' Hx He'). lia.
Qed.

Lemma querySelectorAll_singleton (sel : Selector) (d : Document) (k : nat) (e : Element) :
  d !! k = Some e -> sel e = true ->
  (forall x e', d !! x = Some e' -> sel e' = true -> x = k) ->
  querySelectorAll sel d = [k].
Proof. intros. unfold querySelectorAll. now rewrite (matchesFrom_singleton sel d 0 k e). Qed.

Lemma querySelector_Some_lookup (sel : Selector) (d : Document) (i : nat) :
  querySelector sel d = Some i -> exists e, d !! i = Some e /\ sel e = true.
Proof.
  unfold querySelector. intros H. apply head_Some_elem_of in H.
  now apply elem_of_querySelectorAll.
Qed.

(** Two documents that agree on a view of their elements answer alike
    to a selector that only looks at this view. *)
Lemma matchesFrom_view {V : Type} (view : Element -> V) (sel : Selector)
    (d d' : Document) (n : nat) :
  (forall e e', view e = view e' -> sel e = sel e') ->
  map view d = map view d' ->
  matchesFrom n sel d = matchesFrom n sel d'.
Proof.
  intros Hsel. revert d' n. induction d as [|e d IH]; intros [|e' d'] n H;
    try discriminate; [reflexivity|].
  simpl in H. injection H as He H. simpl.
  rewrite (Hsel e e' He). now rewrite (IH d' (S n) H).
Qed.

Lemma map_alter_view {V : Type} (view : Element -> V) (f : Element -> Element)
    (i : nat) (d : Document) :
  (forall e, view (f e) = view e) -> map view (alter f i d) = map view d.
Proof.
  intros Hf. apply list_eq. intros x.
  rewrite !list_lookup_fmap, list_lookup_alter.
  case_decide; subst; [|reflexivity].
  destruct (d !! x); simpl; [now rewrite Hf | reflexivity].
Qed.

Lemma map_forEach_view {V : Type} (view : Element -> V) (f : Element -> Element)
    (nodes : list nat) (d : Document) :
  (forall e, view (f e) = view e) -> map view (forEach nodes f d) = map view d.
Proof.
  intros Hf. unfold forEach. revert d.
  induction nodes as [|i nodes IH]; intros d; simpl; [reflexivity|].
  rewrite IH. now apply map_alter_view.
Qed.

Lemma map_view_lookup {V : Type} (view : Element -> V) (d d' : Document)
    (x : nat) (e' : Element) :
  map view d = map view d' -> d' !! x = Some e' ->
  exists e, d !! x = Some e /\ view e = view e'.
Proof.
  intros H Hx. apply (f_equal (fun l => l !! x)) in H.
  rewrite !list_lookup_fmap, Hx in H. simpl in H.
  destruct (d !! x) as [e|]; [|discriminate].
  exists e. split; [reflexivity|]. simpl in H. congruence.
Qed.

(** [forEach] reaches the listed nodes and no other. *)
Lemma forEach_lookup_notin (f : Element -> Element) (nodes : list nat)
    (d : Document) (x : nat) :
  x ∉ nodes -> forEach nodes f d !! x = d !! x.
Proof.
  unfold forEach. revert d.
  induction nodes as [|i nodes IH]; intros d Hx; simpl; [reflexivity|].
  rewrite not_elem_of_cons in Hx. destruct Hx as [Hne Hx].
  rewrite IH by exact Hx. apply list_lookup_alter_ne. congruence.
Qed.

Lemma forEach_lookup_in (f : Element -> Element) (nodes : list nat)
    (d : Document) (x : nat) :
  NoDup nodes -> x ∈ nodes -> forEach nodes f d !! x = f <$> d !! x.
Proof.
  unfold forEach. revert d.
  induction nodes as [|i nodes IH]; intros d Hnd Hx; [inversion Hx|].
  apply NoDup_cons in Hnd as [Hi Hnd]. simpl.
  apply elem_of_cons in Hx as [->|Hx].
  - fold (forEach nodes f (alter f i d)).
    rewrite forEach_lookup_notin by exact Hi. apply list_lookup_alter_eq.
  - rewrite IH by assumption.
    rewrite list_lookup_alter_ne; [reflexivity|]. intros ->. contradiction.
Qed.

End DomFacts.

(** ** The router *)

Module RouterFacts.
Import Dom Browser Router DomFacts.

Lemma filter_idem {A : Type} (p : A -> bool) (l : list A) :
  List.filter p (List.filter p l) = List.filter p l.
Proof.
  induction l as [|a l IH]; [reflexivity|].
  cbn [List.filter]. destruct (p a) eqn:E; [|exact IH].
  cbn [List.filter]. rewrite E. now f_equal.
Qed.

Lemma static_remove (e : Element) : static (classList_remove "active" e) = static e.
Proof.
  unfold static, classList_remove. cbn [el_id el_dataSection el_classes].
  now rewrite filter_idem.
Qed.

Lemma static_add (e : Element) : static (classList_add "active" e) = static e.
Proof.
  unfold static, classList_add. destruct (hasClass "active" e); [reflexivity|].
  simpl. f_equal. rewrite List.filter_app. simpl. apply app_nil_r.
Qed.

Lemma static_scrollTop (z : Z) (e : Element) : static (set_scrollTop z e) = static e.
Proof. reflexivity. Qed.

Lemma static_textContent (t : TextContent) (e : Element) :
  static (set_textContent t e) = static e.
Proof. reflexivity. Qed.

Lemma attrs_static (e e' : Element) : attrs e = attrs e' -> static e = static e'.
Proof. unfold attrs, static. intros H. injection H as -> -> ->. reflexivity. Qed.

Lemma hasClass_static (c : string) (e e' : Element) :
  c <> "active" -> static e = static e' -> hasClass c e = hasClass c e'.
Proof.
  intros Hc H. apply (f_equal snd) in H. unfold static in H. cbn [snd] in H.
  unfold hasClass.
  assert (F : forall l, existsb (String.eqb c) l =
            existsb (String.eqb c)
              (List.filter (fun x => negb (String.eqb "active" x)) l)).
  { induction l as [|x l IH]; [reflexivity|]. cbn [existsb List.filter].
    destruct (String.eqb "active" x) eqn:E; cbn [negb existsb].
    - apply String.eqb_eq in E. subst x.
      apply String.eqb_neq in Hc. rewrite Hc. exact IH.
    - now rewrite IH. }
  now rewrite (F (el_classes e)), (F (el_classes e')), H.
Qed.

Lemma hasClass_remove (c : string) (e : Element) :
  hasClass c (classList_remove c e) = false.
Proof.
  unfold hasClass, classList_remove. cbn [el_classes].
  induction (el_classes e) as [|x l IH]; [reflexivity|].
  cbn [List.filter]. destruct (String.eqb c x) eqn:E; cbn [negb existsb]; [exact IH|].
  now rewrite E.
Qed.

Lemma hasClass_add (c : string) (e : Element) :
  hasClass c (classList_add c e) = true.
Proof.
  unfold classList_add. destruct (hasClass c e) eqn:E; [exact E|].
  unfold hasClass. cbn [el_classes]. rewrite existsb_app. cbn [existsb].
  rewrite String.eqb_refl. now rewrite orb_true_r.
Qed.

(** The selectors that look at the unchanging part only. *)
Lemma sel_channelItem_static (e e' : Element) :
  static e = static e' -> sel_channelItem e = sel_channelItem e'.
Proof.
  intros H. unfold sel_channelItem.
  rewrite (hasClass_static "channel-item" e e') by (discriminate || exact H).
  apply (f_equal (fun t => snd (fst t))) in H. unfold static in H.
  cbn [fst snd] in H. now rewrite H.
Qed.

Lemma sel_contentSection_static (e e' : Element) :
  static e = static e' -> sel_contentSection e = sel_contentSection e'.
Proof. intros H. apply hasClass_static; [discriminate | exact H]. Qed.

Lemma sel_messagesContainer_static (e e' : Element) :
  static e = static e' -> sel_messagesContainer e = sel_messagesContainer e'.
Proof. intros H. apply hasClass_static; [discriminate | exact H]. Qed.

Lemma sel_dataSection_static (v : string) (e e' : Element) :
  static e = static e' -> sel_dataSection v e = sel_dataSection v e'.
Proof.
  intros H. apply (f_equal (fun t => snd (fst t))) in H. unfold static in H.
  cbn [fst snd] in H. unfold sel_dataSection. now rewrite H.
Qed.

Lemma sel_id_static (v : string) (e e' : Element) :
  static e = static e' -> String.eqb (el_id e) v = String.eqb (el_id e') v.
Proof.
  intros H. apply (f_equal (fun t => fst (fst t))) in H. unfold static in H.
  cbn [fst] in H. now rewrite H.
Qed.

Section StaticQueries.
Variables d d' : Document.
Hypothesis Hstatic : map static d = map static d'.

Lemma channelItems_static : channelItems d = channelItems d'.
Proof. exact (matchesFrom_view static _ d d' 0 sel_channelItem_static Hstatic). Qed.

Lemma sections_static : sections d = sections d'.
Proof. exact (matchesFrom_view static _ d d' 0 sel_contentSection_static Hstatic). Qed.

Lemma querySelector_dataSection_static (v : string) :
  querySelector (sel_dataSection v) d = querySelector (sel_dataSection v) d'.
Proof.
  unfold querySelector, querySelectorAll.
  now rewrite (matchesFrom_view static _ d d' 0 (sel_dataSection_static v) Hstatic).
Qed.

Lemma getElementById_static (v : string) :
  getElementById v d = getElementById v d'.
Proof.
  unfold getElementById, querySelector, querySelectorAll.
  now rewrite (matchesFrom_view static _ d d' 0 (sel_id_static v) Hstatic).
Qed.

Lemma messagesContainer_static :
  querySelector sel_messagesContainer d = querySelector sel_messagesContainer d'.
Proof.
  unfold querySelector, querySelectorAll.
  now rewrite (matchesFrom_view static _ d d' 0 sel_messagesContainer_static Hstatic).
Qed.
End StaticQueries.

Lemma static_cleared (d : Document) : map static (cleared d) = map static d.
Proof.
  unfold cleared.
  rewrite !(map_forEach_view static) by apply static_remove. reflexivity.
Qed.

Lemma static_markedDoc (sid : string) (d : Document) :
  map static (markedDoc sid d) = map static d.
Proof.
  unfold markedDoc.
  destruct (getElementById sid _); destruct (querySelector _ (cleared d));
    rewrite ?(map_alter_view static) by apply static_add;
    apply static_cleared.
Qed.

Lemma attrs_scrollTop (z : Z) (e : Element) : attrs (set_scrollTop z e) = attrs e.
Proof. reflexivity. Qed.

Lemma attrs_textContent (t : TextContent) (e : Element) :
  attrs (set_textContent t e) = attrs e.
Proof. reflexivity. Qed.

(** Up to scrolling and the label text, [switchSection] leaves the
    document as [markedDoc] describes it, also when it throws. *)
Lemma switchSection_attrs (p : Page) (sid : string) :
  selector_safe sid = true ->
  map attrs (document (page_of (switchSection p sid)))
  = map attrs (markedDoc sid (document p)).
Proof.
  intros Hsafe. unfold switchSection, clearActive, markedDoc.
  fold (cleared (document p)). cbn [andThen].
  unfold markItem, querySelector_dataSection. rewrite Hsafe.
  cbn [document with_document].
  destruct (querySelector (sel_dataSection sid) (cleared (document p))) as [i|];
    cbn [andThen]; unfold markSection; cbn [document with_document];
    (destruct (getElementById sid _) as [j|];
     [ destruct (querySelector sel_messagesContainer _) as [c|] |];
     cbn [andThen page_of document]; [ | reflexivity | ]);
    unfold updateLabel;
    (destruct (truthy _); [destruct (channelNameEl _) as [l|] |]);
    cbn [andThen page_of document with_document pushHash];
    rewrite ?(map_alter_view attrs _ _ _ (attrs_textContent _)),
            ?(map_alter_view attrs _ _ _ (attrs_scrollTop _));
    reflexivity.
Qed.

(** The lookups of [markedDoc] give what they give on the document it
    starts from. *)
Lemma markedDoc_unfold (sid : string) (d : Document) :
  markedDoc sid d =
  let d3 := match querySelector (sel_dataSection sid) d with
            | Some i => alter (classList_add "active") i (cleared d)
            | None => cleared d
            end in
  match getElementById sid d with
  | Some j => alter (classList_add "active") j d3
  | None => d3
  end.
Proof.
  unfold markedDoc.
  rewrite (querySelector_dataSection_static (cleared d) d (static_cleared d)).
  cbv zeta.
  set (d3 := match querySelector (sel_dataSection sid) d with
             | Some i => alter (classList_add "active") i (cleared d)
             | None => cleared d
             end).
  assert (H3 : map static d3 = map static d).
  { unfold d3. destruct (querySelector (sel_dataSection sid) d);
      rewrite ?(map_alter_view static) by apply static_add; apply static_cleared. }
  now rewrite (getElementById_static d3 d H3).
Qed.

Lemma cleared_not_active (d : Document) (x : nat) (e' : Element) :
  x ∈ sections d \/ x ∈ channelItems d ->
  cleared d !! x = Some e' -> hasClass "active" e' = false.
Proof.
  intros Hx. unfold cleared.
  destruct (decide (x ∈ sections d)) as [Hs|Hs].
  - rewrite forEach_lookup_in by (apply NoDup_matchesFrom || exact Hs).
    destruct (_ !! x) as [e|]; [|discriminate].
    intros [= <-]. apply hasClass_remove.
  - destruct Hx as [Hx|Hx]; [contradiction|].
    rewrite forEach_lookup_notin by exact Hs.
    rewrite forEach_lookup_in by (apply NoDup_matchesFrom || exact Hx).
    destruct (_ !! x) as [e|]; [|discriminate].
    intros [= <-]. apply hasClass_remove.
Qed.

Lemma markedDoc_active_only (sid : string) (d : Document) (x : nat) (e' : Element) :
  x ∈ sections d \/ x ∈ channelItems d ->
  markedDoc sid d !! x = Some e' -> hasClass "active" e' = true ->
  getElementById sid d = Some x \/ querySelector (sel_dataSection sid) d = Some x.
Proof.
  intros Hx. rewrite markedDoc_unfold. cbv zeta.
  destruct (getElementById sid d) as [j|].
  { destruct (decide (j = x)) as [->|Hj]; [now left|].
    rewrite list_lookup_alter_ne by exact Hj.
    destruct (querySelector (sel_dataSection sid) d) as [i|].
    - destruct (decide (i = x)) as [->|Hi]; [now right|].
      rewrite list_lookup_alter_ne by exact Hi.
      intros Hl Ha. rewrite (cleared_not_active d x e' Hx Hl) in Ha. discriminate.
    - intros Hl Ha. rewrite (cleared_not_active d x e' Hx Hl) in Ha. discriminate. }
  destruct (querySelector (sel_dataSection sid) d) as [i|].
  - destruct (decide (i = x)) as [->|Hi]; [now right|].
    rewrite list_lookup_alter_ne by exact Hi.
    intros Hl Ha. rewrite (cleared_not_active d x e' Hx Hl) in Ha. discriminate.
  - intros Hl Ha. rewrite (cleared_not_active d x e' Hx Hl) in Ha. discriminate.
Qed.

Lemma markedDoc_lookup (sid : string) (d : Document) (x : nat) (e : Element) :
  d !! x = Some e ->
  exists e', markedDoc sid d !! x = Some e' /\ static e' = static e.
Proof.
  intros Hx.
  apply (map_view_lookup static (markedDoc sid d) d x e); [|exact Hx].
  apply static_markedDoc.
Qed.

Lemma markedDoc_active_section (sid : string) (d : Document) (j : nat) (e' : Element) :
  getElementById sid d = Some j -> markedDoc sid d !! j = Some e' ->
  hasClass "active" e' = true.
Proof.
  intros Hj. rewrite markedDoc_unfold. cbv zeta. rewrite Hj.
  rewrite list_lookup_alter_eq.
  destruct (_ !! j) as [e|]; [|discriminate].
  intros [= <-]. apply hasClass_add.
Qed.

Lemma markedDoc_active_item (sid : string) (d : Document) (i : nat) (e' : Element) :
  querySelector (sel_dataSection sid) d = Some i -> markedDoc sid d !! i = Some e' ->
  hasClass "active" e' = true.
Proof.
  intros Hi. rewrite markedDoc_unfold. cbv zeta. rewrite Hi.
  destruct (getElementById sid d) as [j|].
  - destruct (decide (j = i)) as [->|Hne].
    + rewrite list_lookup_alter_eq.
      destruct (_ !! i) as [e|]; [|discriminate].
      intros [= <-]. apply hasClass_add.
    + rewrite list_lookup_alter_ne by exact Hne.
      rewrite list_lookup_alter_eq.
      destruct (_ !! i) as [e|]; [|discriminate].
      intros [= <-]. apply hasClass_add.
  - rewrite list_lookup_alter_eq.
    destruct (_ !! i) as [e|]; [|discriminate].
    intros [= <-]. apply hasClass_add.
Qed.

(** The selectors for the active nodes look at [attrs] only. *)
Lemma activeSections_attrs (d d' : Document) :
  map attrs d = map attrs d' -> activeSections d = activeSections d'.
Proof.
  intros H. apply (matchesFrom_view attrs _ d d' 0); [|exact H].
  intros e e' He. unfold sel_activeSection, hasClass.
  apply (f_equal snd) in He. unfold attrs in He. cbn [snd] in He.
  now rewrite He.
Qed.

Lemma activeItems_attrs (d d' : Document) :
  map attrs d = map attrs d' -> activeItems d = activeItems d'.
Proof.
  intros H. apply (matchesFrom_view attrs _ d d' 0); [|exact H].
  intros e e' He. unfold sel_channelItem, hasClass.
  pose proof (f_equal snd He) as Hc.
  pose proof (f_equal (fun t => snd (fst t)) He) as Hd.
  unfold attrs in Hc, Hd. cbn [fst snd] in Hc, Hd.
  now rewrite Hc, Hd.
Qed.

Lemma map_attrs_static (d d' : Document) :
  map attrs d = map attrs d' -> map static d = map static d'.
Proof.
  intros H.
  set (g := fun t : string * option string * list string =>
              (fst (fst t), snd (fst t),
               List.filter (fun x => negb (String.eqb "active" x)) (snd t))).
  change static with (fun e => g (attrs e)).
  now rewrite <- !(List.map_map attrs g), H.
Qed.

(** The node lists taken at start-up stay what they are. *)
Lemma static_switchSection (p : Page) (sid : string) :
  selector_safe sid = true ->
  map static (document (page_of (switchSection p sid))) = map static (document p).
Proof.
  intros Hsafe.
  rewrite (map_attrs_static _ _ (switchSection_attrs p sid Hsafe)).
  apply static_markedDoc.
Qed.

(** What [dom_contract] says, node by node. *)
Lemma dom_contract_panel (d : Document) (j : nat) :
  dom_contract d = true -> j ∈ sections d ->
  exists e i,
    d !! j = Some e /\ selector_safe (el_id e) = true
    /\ getElementById (el_id e) d = Some j
    /\ querySelector (sel_dataSection (el_id e)) d = Some i
    /\ i ∈ channelItems d.
Proof.
  unfold dom_contract. intros H Hj. apply andb_prop in H as [H _].
  rewrite forallb_forall in H. apply list_elem_of_In in Hj.
  specialize (H j Hj). unfold panel_ok in H.
  destruct (d !! j) as [e|]; [|discriminate].
  apply andb_prop in H as [H Hi]. apply andb_prop in H as [Hsafe Hid].
  apply bool_decide_eq_true in Hid.
  destruct (querySelector (sel_dataSection (el_id e)) d) as [i|] eqn:Hq;
    [|discriminate].
  apply bool_decide_eq_true in Hi.
  exists e, i. split_and!; done.
Qed.

Lemma dom_contract_dataSection (d : Document) (v : string) (i : nat) :
  dom_contract d = true ->
  querySelector (sel_dataSection v) d = Some i -> i ∉ sections d.
Proof.
  unfold dom_contract. intros H Hi Hs. apply andb_prop in H as [_ H].
  rewrite forallb_forall in H.
  apply querySelector_Some_lookup in Hi as (e & He & Hv).
  apply elem_of_querySelectorAll in Hs as (e' & He' & Hc).
  rewrite He in He'. injection He' as <-.
  specialize (H e). rewrite <- list_elem_of_In in H.
  specialize (H (list_elem_of_lookup_2 _ _ _ He)).
  rewrite Hc in H. unfold sel_dataSection in Hv.
  destruct (el_dataSection e); [|discriminate].
  rewrite bool_decide_eq_true_2 in H by eauto. discriminate.
Qed.

Lemma dom_contract_disjoint (d : Document) (x : nat) :
  dom_contract d = true -> x ∈ sections d -> x ∉ channelItems d.
Proof.
  unfold dom_contract. intros H Hs Hi. apply andb_prop in H as [_ H].
  rewrite forallb_forall in H.
  apply elem_of_querySelectorAll in Hs as (e & He & Hc).
  apply elem_of_querySelectorAll in Hi as (e' & He' & Hi).
  rewrite He in He'. injection He' as <-.
  specialize (H e). rewrite <- list_elem_of_In in H.
  specialize (H (list_elem_of_lookup_2 _ _ _ He)).
  unfold sel_channelItem in Hi. apply andb_prop in Hi as [_ Hi].
  rewrite Hc, Hi in H. discriminate.
Qed.

Lemma isSectionId_spec (sid : string) (d : Document) :
  isSectionId sid d = true <->
  exists j e, j ∈ sections d /\ d !! j = Some e /\ el_id e = sid.
Proof.
  unfold isSectionId. rewrite existsb_exists. split.
  - intros (j & Hj & H). destruct (d !! j) as [e|] eqn:E; [|discriminate].
    exists j, e. apply String.eqb_eq in H. apply list_elem_of_In in Hj. auto.
  - intros (j & e & Hj & He & Hid). exists j. split; [now apply list_elem_of_In|].
    rewrite He. now apply String.eqb_eq.
Qed.

Lemma NoDup_all_equal (l : list nat) :
  NoDup l -> (forall x y, x ∈ l -> y ∈ l -> x = y) -> length l <= 1.
Proof.
  intros Hnd H. destruct l as [|a [|b l]]; simpl; [lia | lia |].
  exfalso. apply NoDup_cons in Hnd as [Ha _]. apply Ha.
  rewrite (H a b); [left | left | right; left].
Qed.

(** The panels that are active after [switchSection], for a panel id
    and for any id. *)
Lemma markedDoc_activeSections (sid : string) (d : Document) (j : nat) :
  dom_contract d = true -> j ∈ sections d ->
  getElementById sid d = Some j ->
  activeSections (markedDoc sid d) = [j].
Proof.
  intros Hc Hj Hid.
  apply elem_of_querySelectorAll in Hj as (e & He & Hsec).
  destruct (markedDoc_lookup sid d j e He) as (e' & He' & Hst).
  apply (querySelectorAll_singleton _ _ j e' He').
  - unfold sel_activeSection.
    rewrite (markedDoc_active_section sid d j e' Hid He').
    fold (sel_contentSection e').
    now rewrite (sel_contentSection_static e' e Hst), Hsec.
  - intros x ex Hx Hsel. unfold sel_activeSection in Hsel.
    apply andb_prop in Hsel as [Hxs Hxa].
    assert (Hxin : x ∈ sections d).
    { rewrite <- (sections_static _ _ (static_markedDoc sid d)).
      apply elem_of_querySelectorAll. eauto. }
    destruct (markedDoc_active_only sid d x ex (or_introl Hxin) Hx Hxa) as [H|H].
    + congruence.
    + exfalso. exact (dom_contract_dataSection d sid x Hc H Hxin).
Qed.

Lemma markedDoc_activeSections_le (sid : string) (d : Document) :
  dom_contract d = true -> length (activeSections (markedDoc sid d)) <= 1.
Proof.
  intros Hc. apply NoDup_all_equal; [apply NoDup_matchesFrom|].
  assert (H : forall x, x ∈ activeSections (markedDoc sid d) ->
                        getElementById sid d = Some x).
  { intros x Hx. apply elem_of_querySelectorAll in Hx as (ex & Hx & Hsel).
    unfold sel_activeSection in Hsel. apply andb_prop in Hsel as [Hxs Hxa].
    assert (Hxin : x ∈ sections d).
    { rewrite <- (sections_static _ _ (static_markedDoc sid d)).
      apply elem_of_querySelectorAll. eauto. }
    destruct (markedDoc_active_only sid d x ex (or_introl Hxin) Hx Hxa) as [H|H];
      [exact H|].
    exfalso. exact (dom_contract_dataSection d sid x Hc H Hxin). }
  intros x y Hx Hy. apply H in Hx, Hy. congruence.
Qed.

Lemma markedDoc_activeItems (sid : string) (d : Document) (i j : nat) :
  dom_contract d = true -> j ∈ sections d -> i ∈ channelItems d ->
  getElementById sid d = Some j ->
  querySelector (sel_dataSection sid) d = Some i ->
  activeItems (markedDoc sid d) = [i].
Proof.
  intros Hc Hj Hi Hid Hds.
  pose proof Hi as Hi'.
  apply elem_of_querySelectorAll in Hi' as (e & He & Hitem).
  destruct (markedDoc_lookup sid d i e He) as (e' & He' & Hst).
  apply (querySelectorAll_singleton _ _ i e' He').
  - rewrite (markedDoc_active_item sid d i e' Hds He').
    now rewrite (sel_channelItem_static e' e Hst), Hitem.
  - intros x ex Hx Hsel. apply andb_prop in Hsel as [Hxi Hxa].
    assert (Hxin : x ∈ channelItems d).
    { rewrite <- (channelItems_static _ _ (static_markedDoc sid d)).
      apply elem_of_querySelectorAll. eauto. }
    destruct (markedDoc_active_only sid d x ex (or_intror Hxin) Hx Hxa) as [H|H].
    + exfalso. assert (x = j) as -> by congruence.
      exact (dom_contract_disjoint d j Hc Hj Hxin).
    + congruence.
Qed.

Lemma sel_dataSection_true (v : string) (e : Element) :
  sel_dataSection v e = true -> el_dataSection e = Some v.
Proof.
  unfold sel_dataSection. destruct (el_dataSection e) as [x|]; [|discriminate].
  intros H. apply String.eqb_eq in H. now subst.
Qed.

Lemma static_dataSection (e e' : Element) :
  static e = static e' -> el_dataSection e = el_dataSection e'.
Proof. intros H. exact (f_equal (fun t => snd (fst t)) H). Qed.

Lemma static_id (e e' : Element) : static e = static e' -> el_id e = el_id e'.
Proof. intros H. exact (f_equal (fun t => fst (fst t)) H). Qed.

(** C2: on a page that keeps the DOM contract, for every id [sid] of a
    content panel, after [switchSection(sid)] exactly one NavigationItem
    and exactly one content panel carry the active marker, the item with
    [data-section = sid] and the panel with [id = sid]; and after a call
    with any id at most one content panel is active.  The state meant is
    the one the call leaves, whether it returns or throws. *)
Theorem switchSection_activates_one (p : Page) (sid : string) :
  dom_contract (document p) = true ->
  isSectionId sid (document p) = true ->
  exists i j item panel,
    let d' := document (page_of (switchSection p sid)) in
    activeItems d' = [i] /\ d' !! i = Some item /\ el_dataSection item = Some sid
    /\ activeSections d' = [j] /\ d' !! j = Some panel /\ el_id panel = sid
    /\ forall id, selector_safe id = true ->
         length (activeSections (document (page_of (switchSection p id)))) <= 1.
Proof.
  intros Hc Hsid. apply isSectionId_spec in Hsid as (j & e & Hj & He & Hid).
  destruct (dom_contract_panel _ j Hc Hj) as (e0 & i & He0 & Hsafe & Hget & Hds & Hi).
  rewrite He in He0. injection He0 as <-. rewrite Hid in Hsafe, Hget, Hds.
  destruct (querySelector_Some_lookup _ _ _ Hds) as (ei & Hei & Hsel).
  pose proof (static_switchSection p sid Hsafe) as Hst.
  destruct (map_view_lookup static _ _ i ei Hst Hei) as (item & Hitem & Hsi).
  destruct (map_view_lookup static _ _ j e Hst He) as (panel & Hpanel & Hsp).
  exists i, j, item, panel. cbv zeta.
  rewrite (activeItems_attrs _ _ (switchSection_attrs p sid Hsafe)).
  rewrite (activeSections_attrs _ _ (switchSection_attrs p sid Hsafe)).
  split_and!.
  - now apply (markedDoc_activeItems sid _ i j).
  - exact Hitem.
  - rewrite (static_dataSection _ _ Hsi). now apply sel_dataSection_true.
  - now apply markedDoc_activeSections.
  - exact Hpanel.
  - now rewrite (static_id _ _ Hsp).
  - intros id Hid'.
    rewrite (activeSections_attrs _ _ (switchSection_attrs p id Hid')).
    now apply markedDoc_activeSections_le.
Qed.

Lemma switchSection_activates_one_witness :
  exists i j item panel,
    let d' := document (page_of (switchSection Sample.page "demo")) in
    activeItems d' = [i] /\ d' !! i = Some item /\ el_dataSection item = Some "demo"
    /\ activeSections d' = [j] /\ d' !! j = Some panel /\ el_id panel = "demo"
    /\ forall id, selector_safe id = true ->
         length (activeSections (document (page_of (switchSection Sample.page id)))) <= 1.
Proof.
  apply (switchSection_activates_one Sample.page "demo"); vm_compute; reflexivity.
Defined.

(** The statements of [switchSection], one by one. *)
Lemma clearActive_returns (p : Page) :
  clearActive p = Returned (with_document p (cleared (document p))).
Proof. reflexivity. Qed.

Lemma markItem_returns (sid : string) (p : Page) :
  selector_safe sid = true ->
  exists d', markItem sid p = Returned (mkPage d' (history p))
             /\ map static d' = map static (document p).
Proof.
  intros Hsafe. unfold markItem, querySelector_dataSection. rewrite Hsafe.
  destruct (querySelector _ _) as [i|].
  - eexists. split; [reflexivity|]. apply map_alter_view, static_add.
  - exists (document p). now destruct p.
Qed.

Lemma markSection_returns (sid : string) (p : Page) :
  is_Some (querySelector sel_messagesContainer (document p)) ->
  exists d', markSection sid p = Returned (mkPage d' (history p))
             /\ map static d' = map static (document p).
Proof.
  intros [c Hc]. unfold markSection.
  destruct (getElementById sid (document p)) as [j|].
  - rewrite (messagesContainer_static _ (document p)
               (map_alter_view static _ j _ static_add)), Hc.
    eexists. split; [reflexivity|].
    rewrite (map_alter_view static) by apply static_scrollTop.
    apply map_alter_view, static_add.
  - exists (document p). now destruct p.
Qed.

Lemma updateLabel_returns (sid : string) (p : Page) :
  is_Some (channelNameEl (document p)) ->
  exists d', updateLabel sid p = Returned (mkPage d' (history p))
             /\ map static d' = map static (document p).
Proof.
  intros [l Hl]. unfold updateLabel. rewrite Hl.
  destruct (truthy _).
  - eexists. split; [reflexivity|]. apply map_alter_view, static_textContent.
  - exists (document p). now destruct p.
Qed.

(** On a page that has the scroll container and the label, for every
    id that can be pasted into the selector, [switchSection] returns and
    leaves the address-bar fragment at [#] followed by the id, as a new
    history entry: the entry that was current is the first one to go
    back to, and the earlier ones follow it.  The push touches the
    history only; the nodes of the document stay the same nodes. *)
Theorem switchSection_pushes_fragment (p : Page) (sid : string) :
  optional_elements (document p) = true ->
  selector_safe sid = true ->
  exists d',
    switchSection p sid =
      Returned (mkPage d' (pushState ("#" ++ sid) (history p)))
    /\ fragment (page_of (switchSection p sid)) = ("#" ++ sid)%string
    /\ back (history (page_of (switchSection p sid)))
        = here (history p) :: back (history p)
    /\ map static d' = map static (document p).
Proof.
  intros Hopt Hsafe. unfold optional_elements in Hopt.
  apply andb_prop in Hopt as [Hc Hl].
  apply bool_decide_eq_true in Hc. apply bool_decide_eq_true in Hl.
  unfold switchSection. rewrite clearActive_returns. cbn [andThen].
  destruct (markItem_returns sid (with_document p (cleared (document p))) Hsafe)
    as (d3 & -> & H3).
  cbn [andThen document history with_document] in *.
  rewrite static_cleared in H3.
  destruct (markSection_returns sid (mkPage d3 (history p))) as (d4 & -> & H4).
  { cbn [document]. now rewrite (messagesContainer_static _ _ H3). }
  cbn [andThen document history] in *. rewrite H3 in H4.
  destruct (updateLabel_returns sid (mkPage d4 (history p))) as (d5 & -> & H5).
  { cbn [document]. unfold channelNameEl.
    now rewrite (getElementById_static _ _ H4). }
  cbn [andThen document history pushHash page_of fragment] in *.
  rewrite H4 in H5. exists d5. split_and!; done.
Qed.

Lemma switchSection_pushes_fragment_witness :
  exists d',
    switchSection Sample.page "features" =
      Returned (mkPage d' (pushState "#features" (history Sample.page)))
    /\ fragment (page_of (switchSection Sample.page "features")) = "#features"
    /\ back (history (page_of (switchSection Sample.page "features")))
        = here (history Sample.page) :: back (history Sample.page)
    /\ map static d' = map static (document Sample.page).
Proof.
  apply (switchSection_pushes_fragment Sample.page "features"); vm_compute; reflexivity.
Defined.

(** C4: what the code does when an optional element is absent.  With a
    panel to show and no scroll container, and with a title to write and
    no label, [switchSection] throws a TypeError and does not reach
    [pushState]. *)
Theorem switchSection_missing_element_throws :
  (exists q, switchSection Sample.pageNoContainer "hero" = Threw TypeError q
             /\ history q = history Sample.pageNoContainer)
  /\ (exists q, switchSection Sample.pageNoLabel "hero" = Threw TypeError q
             /\ history q = history Sample.pageNoLabel).
Proof. split; eexists; split; vm_compute; reflexivity. Qed.

(** C3: the code does not set the fragment for every id.  On the two
    sample pages that lack the scroll container or the label, the call
    [switchSection("hero")] ends in a TypeError before it reaches
    [pushState]: the fragment is the one of before, not [#hero], and no
    entry has been added to the history. *)
Theorem switchSection_throw_keeps_fragment :
  (exists q, switchSection Sample.pageNoContainer "hero" = Threw TypeError q
             /\ fragment q = fragment Sample.pageNoContainer
             /\ fragment q <> "#hero"
             /\ back (history q) = back (history Sample.pageNoContainer))
  /\ (exists q, switchSection Sample.pageNoLabel "hero" = Threw TypeError q
             /\ fragment q = fragment Sample.pageNoLabel
             /\ fragment q <> "#hero"
             /\ back (history q) = back (history Sample.pageNoLabel)).
Proof.
  split; eexists; split_and!;
    [vm_compute; reflexivity | reflexivity | discriminate | reflexivity
    |vm_compute; reflexivity | reflexivity | discriminate | reflexivity].
Qed.

Lemma cleared_activeItems (d : Document) : activeItems (cleared d) = [].
Proof.
  apply matchesFrom_nil. intros x e Hx.
  destruct (sel_channelItem e) eqn:E; [|reflexivity].
  cbn [andb]. apply (cleared_not_active d x e); [|exact Hx].
  right. rewrite <- (channelItems_static _ _ (static_cleared d)).
  apply elem_of_querySelectorAll. eauto.
Qed.

Lemma cleared_activeSections (d : Document) : activeSections (cleared d) = [].
Proof.
  apply matchesFrom_nil. intros x e Hx. unfold sel_activeSection.
  destruct (hasClass "content-section" e) eqn:E; [|reflexivity].
  cbn [andb]. apply (cleared_not_active d x e); [|exact Hx].
  left. rewrite <- (sections_static _ _ (static_cleared d)).
  apply elem_of_querySelectorAll. eauto.
Qed.

Lemma content_cleared (d : Document) : map content (cleared d) = map content d.
Proof.
  unfold cleared. now rewrite !(map_forEach_view content) by reflexivity.
Qed.

Lemma cleared_elsewhere (d : Document) (x : nat) :
  x ∉ channelItems d -> x ∉ sections d -> cleared d !! x = d !! x.
Proof.
  intros Hi Hs. unfold cleared. now rewrite !forEach_lookup_notin.
Qed.

(** The title lookup [channelNames[sid]] for an id without an entry of
    its own: the member that the object literal inherits under that
    name, if there is one. *)
Lemma channelNames_get_no_entry (sid : string) :
  assoc sid channelNames = None ->
  channelNames_get sid =
    if existsb (String.eqb sid) objectPrototypeMembers then JSMember sid
    else JSUndefined.
Proof. intros H. unfold channelNames_get. now rewrite H. Qed.

(** C1, as the code has it: for an id that can be pasted into the
    selector, that no element has as id or as [data-section] and for
    which the title table has no entry, [switchSection] marks nothing
    and leaves every scroll offset as it was, but is not a no-op: it
    takes the active marker off every NavigationItem and every content
    panel.  Unless the id is the name of a member that the title table
    inherits from [Object.prototype], the call returns without an error,
    leaves every text as it was and pushes a history entry with the
    fragment [#] followed by the id.  For such a name the call overwrites
    the label with the text of that member and pushes the entry when the
    label exists, and throws a TypeError and pushes nothing when it does
    not. *)
Theorem switchSection_unknown_id (p : Page) (sid : string) :
  selector_safe sid = true ->
  getElementById sid (document p) = None ->
  querySelector (sel_dataSection sid) (document p) = None ->
  assoc sid channelNames = None ->
  switchSection p sid =
    (if existsb (String.eqb sid) objectPrototypeMembers then
       match channelNameEl (document p) with
       | Some l =>
           Returned (mkPage (alter (set_textContent (MemberText sid)) l
                                   (cleared (document p)))
                            (pushState ("#" ++ sid) (history p)))
       | None => Threw TypeError (mkPage (cleared (document p)) (history p))
       end
     else Returned (mkPage (cleared (document p))
                           (pushState ("#" ++ sid) (history p))))
  /\ activeItems (document (page_of (switchSection p sid))) = []
  /\ activeSections (document (page_of (switchSection p sid))) = []
  /\ map el_scrollTop (document (page_of (switchSection p sid)))
     = map el_scrollTop (document p)
  /\ map static (document (page_of (switchSection p sid)))
     = map static (document p)
  /\ activeItems (cleared (document p)) = []
  /\ activeSections (cleared (document p)) = []
  /\ map content (cleared (document p)) = map content (document p)
  /\ map static (cleared (document p)) = map static (document p)
  /\ (forall x, x ∉ channelItems (document p) -> x ∉ sections (document p) ->
        cleared (document p) !! x = document p !! x).
Proof.
  intros Hsafe Hid Hds Hname.
  assert (Hrun : switchSection p sid =
    (if existsb (String.eqb sid) objectPrototypeMembers then
       match channelNameEl (document p) with
       | Some l =>
           Returned (mkPage (alter (set_textContent (MemberText sid)) l
                                   (cleared (document p)))
                            (pushState ("#" ++ sid) (history p)))
       | None => Threw TypeError (mkPage (cleared (document p)) (history p))
       end
     else Returned (mkPage (cleared (document p))
                           (pushState ("#" ++ sid) (history p))))).
  { unfold switchSection. rewrite clearActive_returns. cbn [andThen].
    unfold markItem, querySelector_dataSection. rewrite Hsafe.
    cbn [document with_document].
    rewrite (querySelector_dataSection_static _ _ (static_cleared (document p))), Hds.
    cbn [andThen]. unfold markSection. cbn [document with_document].
    rewrite (getElementById_static _ _ (static_cleared (document p))), Hid.
    cbn [andThen]. unfold updateLabel.
    rewrite (channelNames_get_no_entry sid Hname).
    destruct (existsb (String.eqb sid) objectPrototypeMembers);
      cbn [truthy toText document with_document]; [|reflexivity].
    unfold channelNameEl.
    rewrite (getElementById_static _ _ (static_cleared (document p))).
    destruct (getElementById "channel-name" (document p)); reflexivity. }
  assert (Hattrs : map attrs (document (page_of (switchSection p sid)))
                   = map attrs (cleared (document p))).
  { rewrite Hrun.
    destruct (existsb (String.eqb sid) objectPrototypeMembers);
      [destruct (channelNameEl (document p))|];
      cbn [page_of document]; try reflexivity.
    apply map_alter_view. intros e. reflexivity. }
  assert (Hscroll : map el_scrollTop (document (page_of (switchSection p sid)))
                    = map el_scrollTop (cleared (document p))).
  { rewrite Hrun.
    destruct (existsb (String.eqb sid) objectPrototypeMembers);
      [destruct (channelNameEl (document p))|];
      cbn [page_of document]; try reflexivity.
    apply map_alter_view. intros e. reflexivity. }
  pose proof (content_cleared (document p)) as Hcontent.
  split_and!.
  - exact Hrun.
  - rewrite (activeItems_attrs _ _ Hattrs). apply cleared_activeItems.
  - rewrite (activeSections_attrs _ _ Hattrs). apply cleared_activeSections.
  - rewrite Hscroll.
    apply (f_equal (map snd)) in Hcontent.
    rewrite !map_map in Hcontent. exact Hcontent.
  - now apply static_switchSection.
  - apply cleared_activeItems.
  - apply cleared_activeSections.
  - exact Hcontent.
  - apply static_cleared.
  - apply cleared_elsewhere.
Qed.

Lemma switchSection_unknown_id_witness :
  switchSection Sample.page "nope" =
    Returned (mkPage (cleared (document Sample.page))
                     (pushState "#nope" (history Sample.page)))
  /\ activeItems (document (page_of (switchSection Sample.page "nope"))) = []
  /\ activeSections (document (page_of (switchSection Sample.page "nope"))) = []
  /\ map el_scrollTop (document (page_of (switchSection Sample.page "nope")))
     = map el_scrollTop (document Sample.page)
  /\ map static (document (page_of (switchSection Sample.page "nope")))
     = map static (document Sample.page)
  /\ activeItems (cleared (document Sample.page)) = []
  /\ activeSections (cleared (document Sample.page)) = []
  /\ map content (cleared (document Sample.page)) = map content (document Sample.page)
  /\ map static (cleared (document Sample.page)) = map static (document Sample.page)
  /\ (forall x, x ∉ channelItems (document Sample.page) ->
                x ∉ sections (document Sample.page) ->
        cleared (document Sample.page) !! x = document Sample.page !! x).
Proof.
  apply (switchSection_unknown_id Sample.page "nope"); vm_compute; reflexivity.
Defined.

(** C1 as stated fails: on the sample page [nope] is the id of no
    Section, and the call [switchSection("nope")] changes the active
    NavigationItems, the active panels and the fragment. *)
Lemma switchSection_unknown_id_counterexample :
  isSectionId "nope" Sample.doc = false
  /\ activeItems (document (page_of (switchSection Sample.page "nope")))
     <> activeItems (document Sample.page)
  /\ activeSections (document (page_of (switchSection Sample.page "nope")))
     <> activeSections (document Sample.page)
  /\ fragment (page_of (switchSection Sample.page "nope")) <> fragment Sample.page.
Proof.
  split_and!; [reflexivity | | | ]; intros H; vm_compute in H; discriminate H.
Qed.

(** C5, as the code has it: on a fragment change and on the initial
    load the listener calls [switchSection] with the fragment exactly
    when the fragment is not empty and some element of the document has
    it as id, a content panel or any other element; otherwise it does
    nothing.  It makes no call with an id for which this lookup found
    nothing. *)
Theorem handleHashChange_calls (p : Page) :
  (forall h, hashChangeCall p = Some h <->
             h = slice1 (location_hash (history p)) /\ h <> ""
             /\ is_Some (getElementById h (document p)))
  /\ (forall h, hashChangeCall p = Some h ->
             handleHashChange p = switchSection p h
             /\ initialLoad p = switchSection p h)
  /\ (hashChangeCall p = None ->
             handleHashChange p = Returned p /\ initialLoad p = Returned p).
Proof.
  assert (Hiff : forall h, hashChangeCall p = Some h <->
             h = slice1 (location_hash (history p)) /\ h <> ""
             /\ is_Some (getElementById h (document p))).
  { intros h. unfold hashChangeCall. cbv zeta.
    destruct (String.eqb_spec (slice1 (location_hash (history p))) "") as [E|E];
      cbn [negb andb].
    - split; [discriminate|]. intros (-> & Hne & _). contradiction.
    - destruct (bool_decide_reflect
                  (is_Some (getElementById (slice1 (location_hash (history p)))
                                           (document p)))) as [Hs|Hs].
      + split; [intros [= <-]; auto | intros (-> & _ & _); reflexivity].
      + split; [discriminate|]. intros (-> & _ & Hs'). contradiction. }
  split; [exact Hiff|]. split.
  - intros h Hh. unfold initialLoad, handleHashChange. rewrite Hh.
    apply Hiff in Hh as (-> & Hne & _).
    destruct (String.eqb_spec (location_hash (history p)) "") as [E|E];
      [|split; reflexivity].
    rewrite E in Hne. contradiction.
  - intros Hn. unfold initialLoad, handleHashChange. rewrite Hn.
    split; [reflexivity|]. now destruct (negb _).
Qed.

Lemma handleHashChange_calls_witness :
  handleHashChange Sample.pageAtLabel = switchSection Sample.pageAtLabel "channel-name"
  /\ initialLoad Sample.pageAtLabel = switchSection Sample.pageAtLabel "channel-name".
Proof.
  apply (proj1 (proj2 (handleHashChange_calls Sample.pageAtLabel)) "channel-name").
  reflexivity.
Defined.

(** C5 as stated fails: opened at the fragment [#channel-name], the id
    of the label and of no Section, the listener calls [switchSection]
    with it, and no panel is active afterwards. *)
Lemma handleHashChange_counterexample :
  hashChangeCall Sample.pageAtLabel = Some "channel-name"
  /\ isSectionId "channel-name" (document Sample.pageAtLabel) = false
  /\ activeSections (document Sample.pageAtLabel) = [7]
  /\ activeSections (document (page_of (handleHashChange Sample.pageAtLabel))) = [].
Proof. split_and!; vm_compute; reflexivity. Qed.

End RouterFacts.

(** ** Arrow-key navigation *)

Module KeyboardFacts.
Import Dom Browser Router Keyboard DomFacts RouterFacts.

Local Open Scope Z_scope.

Lemma indexOf_range (x : nat) (l : list nat) :
  -1 <= indexOf x l < Z.of_nat (length l).
Proof.
  induction l as [|y l IH]; cbn [indexOf length]; [lia|].
  destruct (Nat.eqb x y); [lia|].
  destruct (Z.ltb_spec (indexOf x l) 0); lia.
Qed.

Lemma indexOf_elem (x : nat) (l : list nat) :
  x ∈ l -> 0 <= indexOf x l /\ l !! Z.to_nat (indexOf x l) = Some x.
Proof.
  induction l as [|y l IH]; intros Hx; [inversion Hx|].
  cbn [indexOf]. destruct (Nat.eqb_spec x y) as [->|Hne].
  - split; [lia | reflexivity].
  - apply elem_of_cons in Hx as [Hx|Hx]; [contradiction|].
    destruct (IH Hx) as [H0 Hl].
    destruct (Z.ltb_spec (indexOf x l) 0); [lia|].
    split; [lia|].
    replace (Z.to_nat (indexOf x l + 1)) with (S (Z.to_nat (indexOf x l))) by lia.
    exact Hl.
Qed.

Lemma indexOf_lookup (l : list nat) (k j : nat) :
  NoDup l -> l !! k = Some j -> indexOf j l = Z.of_nat k.
Proof.
  revert k. induction l as [|y l IH]; intros k Hnd Hk; [discriminate|].
  apply NoDup_cons in Hnd as [Hy Hnd]. cbn [indexOf].
  destruct k as [|k].
  - injection Hk as ->. now rewrite Nat.eqb_refl.
  - cbn in Hk. destruct (Nat.eqb_spec j y) as [->|Hne].
    + exfalso. apply Hy. now apply list_elem_of_lookup_2 in Hk.
    + rewrite (IH k Hnd Hk). destruct (Z.ltb_spec (Z.of_nat k) 0); lia.
Qed.

Lemma activeSection_in_sections (d : Document) (j : nat) :
  querySelector sel_activeSection d = Some j -> j ∈ sections d.
Proof.
  intros H. apply querySelector_Some_lookup in H as (e & He & Hsel).
  apply elem_of_querySelectorAll. exists e. split; [exact He|].
  unfold sel_activeSection in Hsel. now apply andb_prop in Hsel as [H _].
Qed.

Lemma currentIndex_range (d : Document) :
  -1 <= currentIndex d < Z.of_nat (length (sections d)).
Proof.
  unfold currentIndex. destruct (querySelector sel_activeSection d).
  - apply indexOf_range.
  - lia.
Qed.

Lemma rem_left (i n : Z) :
  0 < n -> -1 <= i < n -> Z.rem (i - 1 + n) n = (i - 1 + n) mod n.
Proof.
  intros Hn Hi. destruct (Z.eq_dec n 1) as [->|Hne].
  - now rewrite Z.rem_1_r, Z.mod_1_r.
  - apply Z.rem_mod_nonneg; lia.
Qed.

Lemma rem_right (i n : Z) :
  0 < n -> -1 <= i < n -> Z.rem (i + 1) n = (i + 1) mod n.
Proof. intros Hn Hi. apply Z.rem_mod_nonneg; lia. Qed.

Lemma nextIndex_wrapped (key : string) (d : Document) :
  0 < Z.of_nat (length (sections d)) ->
  nextIndex key d
  = Some (wrapped key (currentIndex d) (Z.of_nat (length (sections d)))).
Proof.
  intros Hn. pose proof (currentIndex_range d) as Hi.
  unfold nextIndex, wrapped, js_rem. cbv zeta.
  destruct (Z.eqb_spec (Z.of_nat (length (sections d))) 0) as [E|_]; [lia|].
  destruct (String.eqb key "ArrowLeft").
  - now rewrite rem_left.
  - now rewrite rem_right.
Qed.

Lemma wrapped_range (key : string) (i n : Z) :
  0 < n -> 0 <= wrapped key i n < n.
Proof.
  intros Hn. unfold wrapped.
  destruct (String.eqb key "ArrowLeft"); apply Z.mod_pos_bound; lia.
Qed.

Lemma sections_lookup (d : Document) (k j : nat) :
  sections d !! k = Some j -> exists e, d !! j = Some e.
Proof.
  intros H. apply list_elem_of_lookup_2 in H.
  apply elem_of_querySelectorAll in H as (e & He & _). eauto.
Qed.

Lemma keydownCall_target (key : string) (d : Document) :
  isArrow key = true -> 0 < Z.of_nat (length (sections d)) ->
  exists j e,
    sections d !! Z.to_nat (wrapped key (currentIndex d)
                                    (Z.of_nat (length (sections d)))) = Some j
    /\ d !! j = Some e
    /\ keydownCall key d = Some (el_id e).
Proof.
  intros Hkey Hn.
  pose proof (wrapped_range key (currentIndex d) _ Hn) as Hk.
  destruct (lookup_lt_is_Some_2 (sections d)
              (Z.to_nat (wrapped key (currentIndex d)
                                 (Z.of_nat (length (sections d))))))
    as [j Hj]; [lia|].
  destruct (sections_lookup d _ j Hj) as [e He].
  exists j, e. split_and!; [exact Hj | exact He |].
  unfold keydownCall. rewrite Hkey, (nextIndex_wrapped key d Hn).
  unfold array_get.
  destruct (Z.leb_spec 0 (wrapped key (currentIndex d)
                                  (Z.of_nat (length (sections d))))); [|lia].
  now rewrite Hj, He.
Qed.



(** [dom_contract] looks at the unchanging part of the document only. *)
Lemma forallb_pointwise {A : Type} (f g : A -> bool) (l : list A) :
  (forall x, f x = g x) -> forallb f l = forallb g l.
Proof.
  intros H. induction l as [|x l IH]; [reflexivity|].
  cbn [forallb]. now rewrite H, IH.
Qed.

Lemma forallb_view {V : Type} (view : Element -> V) (f : Element -> bool)
    (d d' : Document) :
  (forall e e', view e = view e' -> f e = f e') ->
  map view d = map view d' -> forallb f d = forallb f d'.
Proof.
  intros Hf. revert d'. induction d as [|e d IH]; intros [|e' d'] H;
    try discriminate; [reflexivity|].
  cbn [map] in H. injection H as He H. cbn [forallb].
  now rewrite (Hf e e' He), (IH d' H).
Qed.

Lemma panel_ok_static (d d' : Document) (j : nat) :
  map static d = map static d' -> panel_ok d j = panel_ok d' j.
Proof.
  intros H. unfold panel_ok.
  pose proof (f_equal (fun l => l !! j) H) as Hj. cbv beta in Hj.
  rewrite !list_lookup_fmap in Hj.
  destruct (d !! j) as [e|], (d' !! j) as [e'|]; try discriminate; [|reflexivity].
  cbn in Hj. assert (Hs : static e = static e') by congruence.
  rewrite (static_id e e' Hs).
  rewrite (getElementById_static d d' H).
  rewrite (querySelector_dataSection_static d d' H).
  now rewrite (channelItems_static d d' H).
Qed.

Lemma dom_contract_static (d d' : Document) :
  map static d = map static d' -> dom_contract d = dom_contract d'.
Proof.
  intros H. unfold dom_contract.
  rewrite (sections_static d d' H).
  rewrite (forallb_pointwise (panel_ok d) (panel_ok d'))
    by (intros j; now apply panel_ok_static).
  f_equal. apply (forallb_view static); [|exact H].
  intros e e' He.
  now rewrite (sel_contentSection_static e e' He), (static_dataSection e e' He).
Qed.

(** One arrow key press on a page that keeps the contract. *)
Lemma press_index (p : Page) (key : string) :
  dom_contract (document p) = true -> isArrow key = true ->
  0 < Z.of_nat (length (sections (document p))) ->
  exists j,
    sections (document p)
      !! Z.to_nat (wrapped key (currentIndex (document p))
                           (Z.of_nat (length (sections (document p))))) = Some j
    /\ activeSections (document (press key p)) = [j]
    /\ currentIndex (document (press key p))
       = wrapped key (currentIndex (document p))
                 (Z.of_nat (length (sections (document p))))
    /\ map static (document (press key p)) = map static (document p).
Proof.
  intros Hc Hkey Hn.
  destruct (keydownCall_target key (document p) Hkey Hn) as (j & e & Hj & He & Hcall).
  pose proof (list_elem_of_lookup_2 _ _ _ Hj) as Hjin.
  destruct (dom_contract_panel _ j Hc Hjin) as (e0 & i & He0 & Hsafe & Hget & _).
  rewrite He in He0. injection He0 as <-.
  assert (Hpress : press key p = page_of (switchSection p (el_id e))).
  { unfold press, keydown. now rewrite Hcall. }
  pose proof (static_switchSection p (el_id e) Hsafe) as Hst.
  assert (Hact : activeSections (document (press key p)) = [j]).
  { rewrite Hpress.
    rewrite (activeSections_attrs _ _ (switchSection_attrs p (el_id e) Hsafe)).
    now apply markedDoc_activeSections. }
  exists j. rewrite Hpress in *. split_and!; [exact Hj | exact Hact | | exact Hst].
  unfold currentIndex at 1. unfold querySelector.
  change (querySelectorAll sel_activeSection) with activeSections.
  rewrite Hact. cbn [head]. rewrite (sections_static _ _ Hst).
  rewrite (indexOf_lookup (sections (document p)) _ j (NoDup_matchesFrom _ _ _) Hj).
  pose proof (wrapped_range key (currentIndex (document p)) _ Hn). lia.
Qed.

Lemma presses_right (p : Page) (k : nat) :
  dom_contract (document p) = true ->
  0 <= currentIndex (document p) ->
  map static (document (presses k "ArrowRight" p)) = map static (document p)
  /\ currentIndex (document (presses k "ArrowRight" p))
     = (currentIndex (document p) + Z.of_nat k)
       mod Z.of_nat (length (sections (document p))).
Proof.
  intros Hc Hi. pose proof (currentIndex_range (document p)) as Hr.
  induction k as [|k IH].
  - cbn [presses]. split; [reflexivity|].
    rewrite Z.add_0_r. symmetry. apply Z.mod_small. lia.
  - cbn [presses]. destruct IH as [Hst Hidx].
    set (pk := presses k "ArrowRight" p) in *.
    destruct (press_index pk "ArrowRight") as (j & _ & _ & Hidx' & Hst').
    + now rewrite (dom_contract_static _ _ Hst).
    + reflexivity.
    + rewrite (sections_static _ _ Hst). lia.
    + split; [now rewrite Hst', Hst|].
      rewrite Hidx', Hidx, (sections_static _ _ Hst).
      unfold wrapped. cbn [String.eqb Ascii.eqb Bool.eqb].
      rewrite Zplus_mod_idemp_l. f_equal. lia.
Qed.

(** C7: on a page that keeps the DOM contract, with some panel active
    and N panels in all, N presses of the right arrow leave active the
    panel that was active at the start and no other; after k presses
    the active index is [(i + k) mod N]. *)
Theorem right_presses_return (p : Page) (a : nat) :
  dom_contract (document p) = true ->
  querySelector sel_activeSection (document p) = Some a ->
  currentIndex (document (presses (length (sections (document p))) "ArrowRight" p))
  = currentIndex (document p)
  /\ activeSections
       (document (presses (length (sections (document p))) "ArrowRight" p)) = [a]
  /\ (forall k : nat,
        currentIndex (document (presses k "ArrowRight" p))
        = (currentIndex (document p) + Z.of_nat k)
          mod Z.of_nat (length (sections (document p)))).
Proof.
  intros Hc Ha.
  assert (Hidx : 0 <= currentIndex (document p)
                 /\ sections (document p) !! Z.to_nat (currentIndex (document p)) = Some a).
  { unfold currentIndex. rewrite Ha. apply indexOf_elem.
    now apply activeSection_in_sections. }
  destruct Hidx as [H0 Hlook].
  pose proof (currentIndex_range (document p)) as Hr.
  assert (Hback : currentIndex
            (document (presses (length (sections (document p))) "ArrowRight" p))
          = currentIndex (document p)).
  { rewrite (proj2 (presses_right p _ Hc H0)).
    rewrite <- (Z.mul_1_l (Z.of_nat (length (sections (document p))))) at 1.
    rewrite Z_mod_plus_full. apply Z.mod_small. lia. }
  split_and!; [exact Hback | | intros k; apply (presses_right p k Hc H0)].
  destruct (length (sections (document p))) as [|m] eqn:En; [lia|].
  cbn [presses] in *.
  destruct (presses_right p m Hc H0) as [Hst _].
  destruct (press_index (presses m "ArrowRight" p) "ArrowRight")
    as (j & Hj & Hact & Hci & _).
  - now rewrite (dom_contract_static _ _ Hst).
  - reflexivity.
  - rewrite (sections_static _ _ Hst), En. lia.
  - rewrite Hact. f_equal.
    rewrite <- Hci, Hback, (sections_static _ _ Hst) in Hj. congruence.
Qed.

Lemma right_presses_return_witness :
  currentIndex (document (presses (length (sections (document Sample.page)))
                                  "ArrowRight" Sample.page))
  = currentIndex (document Sample.page)
  /\ activeSections
       (document (presses (length (sections (document Sample.page)))
                          "ArrowRight" Sample.page)) = [7%nat]
  /\ (forall k : nat,
        currentIndex (document (presses k "ArrowRight" Sample.page))
        = (currentIndex (document Sample.page) + Z.of_nat k)
          mod Z.of_nat (length (sections (document Sample.page)))).
Proof.
  apply (right_presses_return Sample.page 7); vm_compute; reflexivity.
Defined.

Lemma currentIndex_none (d : Document) :
  activeSections d = [] -> currentIndex d = -1.
Proof.
  intros H. unfold currentIndex, querySelector.
  change (querySelectorAll sel_activeSection d) with (activeSections d).
  now rewrite H.
Qed.

(** C10: when no panel is active and there are N >= 2 panels, a left
    press calls [switchSection] for the panel at position N - 2 and a
    right press for the panel at position 0; on a page that keeps the
    DOM contract that panel is the one active afterwards. *)
Theorem keydown_none_active (p : Page) :
  activeSections (document p) = [] ->
  (2 <= length (sections (document p)))%nat ->
  (exists j e,
      sections (document p) !! (length (sections (document p)) - 2)%nat = Some j
      /\ document p !! j = Some e
      /\ keydown "ArrowLeft" p = switchSection p (el_id e)
      /\ (dom_contract (document p) = true ->
          activeSections (document (press "ArrowLeft" p)) = [j]))
  /\ (exists j e,
      sections (document p) !! 0%nat = Some j
      /\ document p !! j = Some e
      /\ keydown "ArrowRight" p = switchSection p (el_id e)
      /\ (dom_contract (document p) = true ->
          activeSections (document (press "ArrowRight" p)) = [j])).
Proof.
  intros Hnone Hn. pose proof (currentIndex_none _ Hnone) as Hci.
  assert (Hpos : 0 < Z.of_nat (length (sections (document p)))) by lia.
  assert (Hleft : Z.to_nat (wrapped "ArrowLeft" (currentIndex (document p))
                     (Z.of_nat (length (sections (document p)))))
                  = (length (sections (document p)) - 2)%nat).
  { rewrite Hci. unfold wrapped. cbn [String.eqb Ascii.eqb Bool.eqb].
    rewrite Z.mod_small by lia. lia. }
  assert (Hright : Z.to_nat (wrapped "ArrowRight" (currentIndex (document p))
                     (Z.of_nat (length (sections (document p))))) = 0%nat).
  { rewrite Hci. unfold wrapped. cbn [String.eqb Ascii.eqb Bool.eqb].
    rewrite Z.mod_small by lia. reflexivity. }
  split.
  - destruct (keydownCall_target "ArrowLeft" (document p) eq_refl Hpos)
      as (j & e & Hj & He & Hcall).
    exists j, e. rewrite Hleft in Hj. split_and!; [exact Hj | exact He | |].
    + unfold keydown. now rewrite Hcall.
    + intros Hc.
      destruct (press_index p "ArrowLeft" Hc eq_refl Hpos) as (j' & Hj' & Hact & _).
      rewrite Hleft in Hj'. congruence.
  - destruct (keydownCall_target "ArrowRight" (document p) eq_refl Hpos)
      as (j & e & Hj & He & Hcall).
    exists j, e. rewrite Hright in Hj. split_and!; [exact Hj | exact He | |].
    + unfold keydown. now rewrite Hcall.
    + intros Hc.
      destruct (press_index p "ArrowRight" Hc eq_refl Hpos) as (j' & Hj' & Hact & _).
      rewrite Hright in Hj'. congruence.
Qed.

Lemma keydown_none_active_witness :
  (exists j e,
      sections (document Sample.pageIdle)
        !! (length (sections (document Sample.pageIdle)) - 2)%nat = Some j
      /\ document Sample.pageIdle !! j = Some e
      /\ keydown "ArrowLeft" Sample.pageIdle = switchSection Sample.pageIdle (el_id e)
      /\ (dom_contract (document Sample.pageIdle) = true ->
          activeSections (document (press "ArrowLeft" Sample.pageIdle)) = [j]))
  /\ (exists j e,
      sections (document Sample.pageIdle) !! 0%nat = Some j
      /\ document Sample.pageIdle !! j = Some e
      /\ keydown "ArrowRight" Sample.pageIdle = switchSection Sample.pageIdle (el_id e)
      /\ (dom_contract (document Sample.pageIdle) = true ->
          activeSections (document (press "ArrowRight" Sample.pageIdle)) = [j])).
Proof.
  apply (keydown_none_active Sample.pageIdle); [reflexivity | vm_compute; lia].
Defined.

End KeyboardFacts.

(** ** The effects of [switchSection] *)

Module EffectsFacts.
Import Dom Browser Router Effects DomFacts RouterFacts KeyboardFacts.

(** [switchSection] with every lookup made in the starting document. *)
Lemma switchSection_normal_form (p : Page) (sid : string) :
  selector_safe sid = true ->
  switchSection p sid =
  match getElementById sid (document p) with
  | Some _ =>
      match querySelector sel_messagesContainer (document p) with
      | None => Threw TypeError (mkPage (markedDoc sid (document p)) (history p))
      | Some c =>
          labelStep sid (document p)
            (alter (set_scrollTop 0) c (markedDoc sid (document p))) (history p)
      end
  | None => labelStep sid (document p) (markedDoc sid (document p)) (history p)
  end.
Proof.
  intros Hsafe. unfold switchSection. rewrite clearActive_returns. cbn [andThen].
  unfold markItem, querySelector_dataSection. rewrite Hsafe.
  cbn [document with_document]. unfold markedDoc.
  set (d3 := match querySelector (sel_dataSection sid) (cleared (document p)) with
             | Some i => alter (classList_add "active") i (cleared (document p))
             | None => cleared (document p)
             end).
  assert (H3 : map static d3 = map static (document p)).
  { unfold d3. destruct (querySelector _ (cleared (document p)));
      rewrite ?(map_alter_view static) by apply static_add; apply static_cleared. }
  replace (match querySelector (sel_dataSection sid) (cleared (document p)) with
           | Some i =>
               Returned (with_document (with_document p (cleared (document p)))
                 (alter (classList_add "active") i (cleared (document p))))
           | None => Returned (with_document p (cleared (document p)))
           end) with (Returned (mkPage d3 (history p)))
    by (unfold d3; now destruct (querySelector _ (cleared (document p)))).
  cbn [andThen]. unfold markSection. cbn [document with_document history].
  rewrite <- (getElementById_static d3 (document p) H3).
  destruct (getElementById sid d3) as [j|].
  - assert (H4 : map static (alter (classList_add "active") j d3)
                 = map static (document p)).
    { rewrite (map_alter_view static) by apply static_add. exact H3. }
    rewrite (messagesContainer_static _ _ H4).
    destruct (querySelector sel_messagesContainer (document p)) as [c|];
      [|reflexivity].
    cbn [andThen]. unfold updateLabel, labelStep. cbn [document with_document history].
    assert (H5 : map static (alter (set_scrollTop 0) c
                               (alter (classList_add "active") j d3))
                 = map static (document p)).
    { rewrite (map_alter_view static) by apply static_scrollTop. exact H4. }
    unfold channelNameEl. rewrite (getElementById_static _ _ H5).
    destruct (truthy _); [|reflexivity].
    now destruct (getElementById "channel-name" (document p)).
  - cbn [andThen]. unfold updateLabel, labelStep. cbn [document with_document history].
    unfold channelNameEl. rewrite (getElementById_static _ _ H3).
    destruct (truthy _); [|reflexivity].
    now destruct (getElementById "channel-name" (document p)).
Qed.

Lemma map_alter_set {V : Type} (view : Element -> V) (f : Element -> Element)
    (i : nat) (d : Document) (v : V) :
  (forall e, view (f e) = v) -> map view (alter f i d) = <[i:=v]> (map view d).
Proof.
  intros Hf. apply list_eq. intros x.
  rewrite list_lookup_fmap, list_lookup_alter, list_lookup_insert.
  rewrite length_map. destruct (decide (i = x)) as [->|Hne].
  - destruct (d !! x) as [e|] eqn:E.
    + rewrite decide_True by (split; [reflexivity|]; eapply lookup_lt_Some; eauto).
      cbn. now rewrite Hf.
    + rewrite decide_False.
      * now rewrite list_lookup_fmap, E.
      * intros [_ Hlt]. apply lookup_ge_None in E. lia.
  - rewrite decide_False by (intros [? _]; contradiction).
    now rewrite list_lookup_fmap.
Qed.

Lemma markedDoc_view {V : Type} (view : Element -> V) (sid : string) (d : Document) :
  (forall e, view (classList_remove "active" e) = view e) ->
  (forall e, view (classList_add "active" e) = view e) ->
  map view (markedDoc sid d) = map view d.
Proof.
  intros Hrm Hadd. unfold markedDoc, cleared.
  destruct (getElementById sid _); destruct (querySelector _ _);
    rewrite ?(map_alter_view view) by exact Hadd;
    now rewrite !(map_forEach_view view) by exact Hrm.
Qed.

Lemma scrollTop_add (e : Element) :
  el_scrollTop (classList_add "active" e) = el_scrollTop e.
Proof. unfold classList_add. now destruct (hasClass _ e). Qed.

Lemma textContent_add (e : Element) :
  el_textContent (classList_add "active" e) = el_textContent e.
Proof. unfold classList_add. now destruct (hasClass _ e). Qed.

Lemma labelStep_scrollTop (sid : string) (d d4 : Document) (h : History) :
  map el_scrollTop (document (page_of (labelStep sid d d4 h))) = map el_scrollTop d4.
Proof.
  unfold labelStep. destruct (truthy _); [|reflexivity].
  destruct (channelNameEl d); [|reflexivity].
  cbn [page_of document]. now apply map_alter_view.
Qed.

(** X1: for an id that can be pasted into the selector, [switchSection]
    returns exactly when no statement meets a missing element: the id
    names no element or the scroll container exists, and the title table
    gives nothing or the label exists.  When it returns it has pushed
    exactly one history entry, [#] followed by the id; when it does not,
    it throws a TypeError and the history is as it was. *)
Theorem switchSection_outcome (p : Page) (sid : string) :
  selector_safe sid = true ->
  (completes sid (document p) = true ->
     exists d', switchSection p sid
                = Returned (mkPage d' (pushState ("#" ++ sid) (history p))))
  /\ (completes sid (document p) = false ->
     exists d', switchSection p sid = Threw TypeError (mkPage d' (history p))).
Proof.
  intros Hsafe. rewrite (switchSection_normal_form p sid Hsafe).
  unfold completes, reachesLabel, labelStep.
  destruct (getElementById sid (document p)) as [j|];
    destruct (querySelector sel_messagesContainer (document p)) as [c|];
    destruct (truthy (channelNames_get sid));
    destruct (channelNameEl (document p)) as [l|];
    cbn; split; intros H; try discriminate H; eexists; reflexivity.
Qed.

Lemma switchSection_outcome_witness :
  exists d', switchSection Sample.pageNoLabel "hero"
             = Threw TypeError (mkPage d' (history Sample.pageNoLabel)).
Proof.
  apply (proj2 (switchSection_outcome Sample.pageNoLabel "hero" eq_refl)).
  reflexivity.
Defined.

(** X2: [switchSection] sets the scroll offset of the first element of
    class [messages-container] to 0 when the id names an element of the
    document, and only then; no other scroll offset changes, whether the
    call returns or throws. *)
Theorem switchSection_scroll (p : Page) (sid : string) :
  selector_safe sid = true ->
  map el_scrollTop (document (page_of (switchSection p sid)))
  = if bool_decide (is_Some (getElementById sid (document p)))
    then setAt (querySelector sel_messagesContainer (document p)) 0%Z
               (map el_scrollTop (document p))
    else map el_scrollTop (document p).
Proof.
  intros Hsafe. rewrite (switchSection_normal_form p sid Hsafe).
  pose proof (markedDoc_view el_scrollTop sid (document p)
                (fun _ => eq_refl) scrollTop_add) as Hm.
  destruct (getElementById sid (document p)) as [j|].
  - rewrite bool_decide_eq_true_2 by eauto.
    destruct (querySelector sel_messagesContainer (document p)) as [c|].
    + rewrite labelStep_scrollTop. cbn [setAt].
      rewrite (map_alter_set el_scrollTop _ c _ 0%Z) by reflexivity.
      now rewrite Hm.
    + exact Hm.
  - rewrite bool_decide_eq_false_2 by (intros [? ?]; discriminate).
    now rewrite labelStep_scrollTop.
Qed.

Lemma switchSection_scroll_witness :
  map el_scrollTop (document (page_of (switchSection Sample.page "demo")))
  = if bool_decide (is_Some (getElementById "demo" (document Sample.page)))
    then setAt (querySelector sel_messagesContainer (document Sample.page)) 0%Z
               (map el_scrollTop (document Sample.page))
    else map el_scrollTop (document Sample.page).
Proof. apply (switchSection_scroll Sample.page "demo"). reflexivity. Defined.

(** X3: [switchSection] replaces the text of the label by the entry of
    the title table when the table has one for the id, the label exists
    and the call gets that far (the id names no element, or the scroll
    container exists); otherwise every text stays as it was.  No text
    other than the label's ever changes. *)
Theorem switchSection_label (p : Page) (sid : string) :
  selector_safe sid = true ->
  map el_textContent (document (page_of (switchSection p sid)))
  = if writesLabel sid (document p)
    then setAt (channelNameEl (document p)) (toText (channelNames_get sid))
               (map el_textContent (document p))
    else map el_textContent (document p).
Proof.
  intros Hsafe. rewrite (switchSection_normal_form p sid Hsafe).
  pose proof (markedDoc_view el_textContent sid (document p)
                (fun _ => eq_refl) textContent_add) as Hm.
  unfold writesLabel, reachesLabel, labelStep.
  destruct (getElementById sid (document p)) as [j|];
    [rewrite bool_decide_eq_true_2 by eauto
    |rewrite bool_decide_eq_false_2 by (intros [? ?]; discriminate)];
    cbn [negb orb].
  - destruct (querySelector sel_messagesContainer (document p)) as [c|];
      [rewrite bool_decide_eq_true_2 by eauto
      |rewrite bool_decide_eq_false_2 by (intros [? ?]; discriminate)];
      cbn [andb]; [|exact Hm].
    destruct (truthy (channelNames_get sid)); cbn [andb page_of document].
    + destruct (channelNameEl (document p)) as [l|];
        [rewrite bool_decide_eq_true_2 by eauto
        |rewrite bool_decide_eq_false_2 by (intros [? ?]; discriminate)];
        cbn [page_of document setAt].
      * rewrite (map_alter_set el_textContent _ l _ (toText (channelNames_get sid)))
          by reflexivity.
        rewrite (map_alter_view el_textContent) by reflexivity. now rewrite Hm.
      * rewrite (map_alter_view el_textContent) by reflexivity. exact Hm.
    + rewrite (map_alter_view el_textContent) by reflexivity. exact Hm.
  - destruct (truthy (channelNames_get sid)); cbn [andb page_of document].
    + destruct (channelNameEl (document p)) as [l|];
        [rewrite bool_decide_eq_true_2 by eauto
        |rewrite bool_decide_eq_false_2 by (intros [? ?]; discriminate)];
        cbn [page_of document setAt].
      * rewrite (map_alter_set el_textContent _ l _ (toText (channelNames_get sid)))
          by reflexivity.
        now rewrite Hm.
      * exact Hm.
    + exact Hm.
Qed.

Lemma switchSection_label_witness :
  map el_textContent (document (page_of (switchSection Sample.page "setup")))
  = if writesLabel "setup" (document Sample.page)
    then setAt (channelNameEl (document Sample.page))
               (toText (channelNames_get "setup"))
               (map el_textContent (document Sample.page))
    else map el_textContent (document Sample.page).
Proof. apply (switchSection_label Sample.page "setup"). reflexivity. Defined.

(** X4: an id that is the name of a member of [Object.prototype], such
    as [constructor] or [toString], is not in the title table, but the
    lookup [channelNames[sectionId]] finds the inherited member: on a
    page with the scroll container and the label, [switchSection]
    overwrites the label with the text of that member. *)
Theorem switchSection_inherited_member (p : Page) (sid : string) :
  In sid objectPrototypeMembers ->
  optional_elements (document p) = true ->
  assoc sid channelNames = None
  /\ exists l,
       channelNameEl (document p) = Some l
       /\ el_textContent <$> (document (page_of (switchSection p sid)) !! l)
          = Some (MemberText sid).
Proof.
  intros Hin Hopt.
  assert (Hfacts : selector_safe sid = true /\ assoc sid channelNames = None
                   /\ channelNames_get sid = JSMember sid).
  { unfold objectPrototypeMembers in Hin. cbn [In] in Hin.
    repeat (destruct Hin as [<-|Hin]; [now vm_compute|]). contradiction. }
  destruct Hfacts as (Hsafe & Hassoc & Hget). split; [exact Hassoc|].
  unfold optional_elements in Hopt. apply andb_prop in Hopt as [Hc Hl].
  apply bool_decide_eq_true in Hc as [c Hc].
  apply bool_decide_eq_true in Hl as [l Hl].
  exists l. split; [exact Hl|].
  assert (Hlt : (l < length (document p))%nat).
  { unfold channelNameEl, getElementById in Hl.
    destruct (String.eqb "channel-name" ""); [discriminate|].
    apply querySelector_Some_lookup in Hl as (e & He & _).
    eapply lookup_lt_Some; eauto. }
  assert (Hlen : length (markedDoc sid (document p)) = length (document p)).
  { rewrite <- (length_map static), static_markedDoc. apply length_map. }
  rewrite (switchSection_normal_form p sid Hsafe), Hc. unfold labelStep.
  rewrite Hget, Hl. cbn [truthy toText].
  destruct (getElementById sid (document p)) as [j|]; cbn [page_of document];
    rewrite list_lookup_alter_eq.
  - destruct (lookup_lt_is_Some_2
                (alter (set_scrollTop 0) c (markedDoc sid (document p))) l) as [e He].
    { rewrite length_alter. lia. }
    now rewrite He.
  - destruct (lookup_lt_is_Some_2 (markedDoc sid (document p)) l) as [e He]; [lia|].
    now rewrite He.
Qed.

Lemma switchSection_inherited_member_witness :
  assoc "constructor" channelNames = None
  /\ exists l,
       channelNameEl (document Sample.page) = Some l
       /\ el_textContent
            <$> (document (page_of (switchSection Sample.page "constructor")) !! l)
          = Some (MemberText "constructor").
Proof.
  apply (switchSection_inherited_member Sample.page "constructor").
  - left. reflexivity.
  - reflexivity.
Defined.

(** [markedDoc], node by node. *)
Lemma forEach_lookup (f : Element -> Element) (nodes : list nat)
    (d : Document) (x : nat) :
  NoDup nodes ->
  forEach nodes f d !! x = (if bool_decide (x ∈ nodes) then f else id) <$> d !! x.
Proof.
  intros Hnd. case_bool_decide.
  - now apply forEach_lookup_in.
  - rewrite forEach_lookup_notin by assumption. now destruct (d !! x).
Qed.

Lemma alter_lookup (f : Element -> Element) (i x : nat) (d : Document) :
  alter f i d !! x = (if bool_decide (Some i = Some x) then f else id) <$> d !! x.
Proof.
  rewrite list_lookup_alter. case_decide; subst.
  - now rewrite bool_decide_eq_true_2.
  - rewrite bool_decide_eq_false_2 by congruence. now destruct (d !! x).
Qed.

Lemma markedDoc_lookup_eq (sid : string) (d : Document) (x : nat) :
  markedDoc sid d !! x
  = markE (channelItems d) (sections d) (querySelector (sel_dataSection sid) d)
          (getElementById sid d) x <$> d !! x.
Proof.
  rewrite markedDoc_unfold. cbv zeta. unfold markE, cleared.
  destruct (getElementById sid d) as [j|];
    destruct (querySelector (sel_dataSection sid) d) as [i|];
    rewrite ?alter_lookup, !forEach_lookup by apply NoDup_matchesFrom;
    destruct (d !! x) as [e|]; cbn [fmap option_fmap option_map]; try reflexivity;
    f_equal; repeat case_bool_decide; try discriminate; reflexivity.
Qed.

Lemma rm_rm (e : Element) :
  classList_remove "active" (classList_remove "active" e)
  = classList_remove "active" e.
Proof.
  unfold classList_remove. cbn [el_id el_classes el_dataSection el_textContent el_scrollTop].
  now rewrite filter_idem.
Qed.

Lemma rm_add (e : Element) :
  classList_remove "active" (classList_add "active" e)
  = classList_remove "active" e.
Proof.
  unfold classList_add. destruct (hasClass "active" e); [reflexivity|].
  unfold classList_remove. cbn [el_id el_classes el_dataSection el_textContent el_scrollTop].
  f_equal. rewrite List.filter_app. cbn [List.filter].
  rewrite String.eqb_refl. cbn [negb]. apply app_nil_r.
Qed.

Lemma add_add (e : Element) :
  classList_add "active" (classList_add "active" e) = classList_add "active" e.
Proof.
  unfold classList_add at 1. now rewrite hasClass_add.
Qed.

Lemma markE_idem (items secs : list nat) (i j : option nat) (x : nat) (e : Element) :
  markE items secs i j x (markE items secs i j x e) = markE items secs i j x e.
Proof.
  unfold markE.
  destruct (bool_decide (x ∈ items)), (bool_decide (x ∈ secs)),
    (bool_decide (i = Some x)), (bool_decide (j = Some x));
    rewrite ?rm_add, ?rm_rm, ?rm_add, ?rm_rm, ?add_add, ?add_add; reflexivity.
Qed.

Lemma switchSection_lookup (p : Page) (sid : string) (x : nat) :
  selector_safe sid = true ->
  document (page_of (switchSection p sid)) !! x
  = finalE sid (document p) x <$> document p !! x.
Proof.
  intros Hsafe. rewrite (switchSection_normal_form p sid Hsafe).
  unfold finalE, writesLabel, reachesLabel, resetsScroll, labelStep.
  destruct (getElementById sid (document p)) as [j|] eqn:Hj;
    [rewrite (bool_decide_eq_true_2 (is_Some (Some j))) by eauto
    |rewrite (bool_decide_eq_false_2 (is_Some None)) by (intros [? ?]; discriminate)];
    (destruct (querySelector sel_messagesContainer (document p)) as [c|] eqn:Hc;
     [rewrite (bool_decide_eq_true_2 (is_Some (Some c))) by eauto
     |rewrite (bool_decide_eq_false_2 (is_Some None)) by (intros [? ?]; discriminate)]);
    cbn [negb orb andb];
    (destruct (truthy (channelNames_get sid));
     [destruct (channelNameEl (document p)) as [l|] eqn:Hl;
      [rewrite ?(bool_decide_eq_true_2 (is_Some (Some l))) by eauto
      |rewrite ?(bool_decide_eq_false_2 (is_Some None)) by (intros [? ?]; discriminate)]
     |]);
    cbn [negb orb andb page_of document];
    rewrite ?alter_lookup, markedDoc_lookup_eq, ?Hj;
    destruct (document p !! x) as [e|]; cbn [fmap option_fmap option_map];
    try reflexivity; f_equal;
    repeat case_bool_decide; try discriminate; reflexivity.
Qed.

Lemma rm_scrollTop (z : Z) (e : Element) :
  classList_remove "active" (set_scrollTop z e)
  = set_scrollTop z (classList_remove "active" e).
Proof. reflexivity. Qed.

Lemma rm_textContent (t : TextContent) (e : Element) :
  classList_remove "active" (set_textContent t e)
  = set_textContent t (classList_remove "active" e).
Proof. reflexivity. Qed.

Lemma add_scrollTop (z : Z) (e : Element) :
  classList_add "active" (set_scrollTop z e)
  = set_scrollTop z (classList_add "active" e).
Proof.
  unfold classList_add. change (hasClass "active" (set_scrollTop z e))
    with (hasClass "active" e). now destruct (hasClass "active" e).
Qed.

Lemma add_textContent (t : TextContent) (e : Element) :
  classList_add "active" (set_textContent t e)
  = set_textContent t (classList_add "active" e).
Proof.
  unfold classList_add. change (hasClass "active" (set_textContent t e))
    with (hasClass "active" e). now destruct (hasClass "active" e).
Qed.

Lemma markE_scrollTop (items secs : list nat) (i j : option nat) (x : nat)
    (z : Z) (e : Element) :
  markE items secs i j x (set_scrollTop z e)
  = set_scrollTop z (markE items secs i j x e).
Proof.
  unfold markE.
  destruct (bool_decide (x ∈ items)), (bool_decide (x ∈ secs)),
    (bool_decide (i = Some x)), (bool_decide (j = Some x));
    rewrite ?rm_scrollTop, ?add_scrollTop, ?add_scrollTop; reflexivity.
Qed.

Lemma markE_textContent (items secs : list nat) (i j : option nat) (x : nat)
    (t : TextContent) (e : Element) :
  markE items secs i j x (set_textContent t e)
  = set_textContent t (markE items secs i j x e).
Proof.
  unfold markE.
  destruct (bool_decide (x ∈ items)), (bool_decide (x ∈ secs)),
    (bool_decide (i = Some x)), (bool_decide (j = Some x));
    rewrite ?rm_textContent, ?add_textContent, ?add_textContent; reflexivity.
Qed.

Lemma finalE_idem (sid : string) (d : Document) (x : nat) (e : Element) :
  finalE sid d x (finalE sid d x e) = finalE sid d x e.
Proof.
  unfold finalE. cbv zeta.
  destruct (resetsScroll sid d && _), (writesLabel sid d && _);
    rewrite ?markE_textContent, ?markE_scrollTop, markE_idem; reflexivity.
Qed.

Lemma finalE_static (sid : string) (d d' : Document) (x : nat) (e : Element) :
  map static d = map static d' -> finalE sid d x e = finalE sid d' x e.
Proof.
  intros H. unfold finalE, writesLabel, reachesLabel, resetsScroll, channelNameEl.
  now rewrite (channelItems_static d d' H), (sections_static d d' H),
    (querySelector_dataSection_static d d' H), !(getElementById_static d d' H),
    (messagesContainer_static d d' H).
Qed.

(** X5: calling [switchSection] a second time with the same id leaves
    the document exactly as the first call left it: markers, texts and
    scroll offsets.  (The history is another matter: every call that
    returns pushes its own entry.) *)
Theorem switchSection_twice (p : Page) (sid : string) :
  selector_safe sid = true ->
  document (page_of (switchSection (page_of (switchSection p sid)) sid))
  = document (page_of (switchSection p sid)).
Proof.
  intros Hsafe. apply list_eq. intros x.
  rewrite (switchSection_lookup (page_of (switchSection p sid)) sid x Hsafe).
  rewrite (switchSection_lookup p sid x Hsafe).
  destruct (document p !! x) as [e|]; [|reflexivity].
  cbn [fmap option_fmap option_map]. f_equal.
  rewrite (finalE_static sid _ (document p) x _ (static_switchSection p sid Hsafe)).
  apply finalE_idem.
Qed.

Lemma switchSection_twice_witness :
  document (page_of (switchSection (page_of (switchSection Sample.page "demo")) "demo"))
  = document (page_of (switchSection Sample.page "demo")).
Proof. apply (switchSection_twice Sample.page "demo"). reflexivity. Defined.

Lemma markE_static (items secs : list nat) (i j : option nat) (x : nat)
    (e : Element) :
  static (markE items secs i j x e) = static e.
Proof.
  unfold markE.
  destruct (bool_decide (x ∈ items)), (bool_decide (x ∈ secs)),
    (bool_decide (i = Some x)), (bool_decide (j = Some x));
    rewrite ?static_add, ?static_add, ?static_remove, ?static_remove; reflexivity.
Qed.

Lemma finalE_static_view (sid : string) (d : Document) (x : nat) (e : Element) :
  static (finalE sid d x e) = static e.
Proof.
  unfold finalE. cbv zeta.
  destruct (resetsScroll sid d && _), (writesLabel sid d && _);
    rewrite ?static_textContent, ?static_scrollTop; apply markE_static.
Qed.

Lemma finalE_classes_outside (sid : string) (d : Document) (x : nat) (e : Element) :
  x ∉ channelItems d -> x ∉ sections d ->
  querySelector (sel_dataSection sid) d <> Some x ->
  getElementById sid d <> Some x ->
  el_classes (finalE sid d x e) = el_classes e.
Proof.
  intros Hi Hs Hq Hg. unfold finalE, markE. cbv zeta.
  rewrite (bool_decide_eq_false_2 _ Hi), (bool_decide_eq_false_2 _ Hs),
    (bool_decide_eq_false_2 _ Hq), (bool_decide_eq_false_2 _ Hg).
  now destruct (resetsScroll sid d && _), (writesLabel sid d && _).
Qed.

(** X6: what [switchSection] never touches.  It adds and removes no
    node, and leaves every id, every [data-section] value and every
    class other than [active] as they were; an element that is neither
    a NavigationItem nor a content panel, and that neither lookup of
    the call finds, keeps its whole class list, an [active] marker
    included. *)
Theorem switchSection_frame (p : Page) (sid : string) :
  selector_safe sid = true ->
  length (document (page_of (switchSection p sid))) = length (document p)
  /\ forall x e e',
       document p !! x = Some e ->
       document (page_of (switchSection p sid)) !! x = Some e' ->
       el_id e' = el_id e
       /\ el_dataSection e' = el_dataSection e
       /\ (forall c, c <> "active" -> hasClass c e' = hasClass c e)
       /\ (x ∉ channelItems (document p) -> x ∉ sections (document p) ->
           querySelector (sel_dataSection sid) (document p) <> Some x ->
           getElementById sid (document p) <> Some x ->
           el_classes e' = el_classes e).
Proof.
  intros Hsafe. split.
  - rewrite <- (length_map static), (static_switchSection p sid Hsafe).
    apply length_map.
  - intros x e e' He He'.
    rewrite (switchSection_lookup p sid x Hsafe), He in He'.
    cbn in He'. injection He' as <-.
    pose proof (finalE_static_view sid (document p) x e) as Hst.
    split_and!.
    + now apply static_id.
    + now apply static_dataSection.
    + intros c Hc. now apply hasClass_static.
    + now apply finalE_classes_outside.
Qed.

Lemma switchSection_frame_witness :
  length (document (page_of (switchSection Sample.page "demo")))
  = length (document Sample.page)
  /\ forall x e e',
       document Sample.page !! x = Some e ->
       document (page_of (switchSection Sample.page "demo")) !! x = Some e' ->
       el_id e' = el_id e
       /\ el_dataSection e' = el_dataSection e
       /\ (forall c, c <> "active" -> hasClass c e' = hasClass c e)
       /\ (x ∉ channelItems (document Sample.page) ->
           x ∉ sections (document Sample.page) ->
           querySelector (sel_dataSection "demo") (document Sample.page) <> Some x ->
           getElementById "demo" (document Sample.page) <> Some x ->
           el_classes e' = el_classes e).
Proof. apply (switchSection_frame Sample.page "demo"). reflexivity. Defined.

Lemma static_switchAll (ids : list string) (p : Page) :
  forallb selector_safe ids = true ->
  map static (document (switchAll ids p)) = map static (document p).
Proof.
  unfold switchAll. revert p.
  induction ids as [|id ids IH]; intros p H; [reflexivity|].
  cbn [forallb] in H. apply andb_prop in H as [Hid H].
  cbn [foldl]. rewrite (IH _ H). now apply static_switchSection.
Qed.

Lemma finalE_keeps_marker (sid : string) (d : Document) (x : nat) (e : Element) :
  x ∉ channelItems d -> x ∉ sections d ->
  hasClass "active" e = true -> hasClass "active" (finalE sid d x e) = true.
Proof.
  intros Hi Hs Ha. unfold finalE, markE. cbv zeta.
  rewrite (bool_decide_eq_false_2 _ Hi), (bool_decide_eq_false_2 _ Hs).
  assert (Ht : forall t e0, hasClass "active" (set_textContent t e0)
                            = hasClass "active" e0) by reflexivity.
  assert (Hz : forall z e0, hasClass "active" (set_scrollTop z e0)
                            = hasClass "active" e0) by reflexivity.
  destruct (resetsScroll sid d && _), (writesLabel sid d && _);
    rewrite ?Ht, ?Hz; repeat case_bool_decide;
    first [exact Ha | apply hasClass_add].
Qed.

Lemma finalE_marks (sid : string) (d : Document) (x : nat) (e : Element) :
  getElementById sid d = Some x -> hasClass "active" (finalE sid d x e) = true.
Proof.
  intros Hg. unfold finalE, markE. cbv zeta.
  rewrite (bool_decide_eq_true_2 _ Hg).
  assert (Ht : forall t e0, hasClass "active" (set_textContent t e0)
                            = hasClass "active" e0) by reflexivity.
  assert (Hz : forall z e0, hasClass "active" (set_scrollTop z e0)
                            = hasClass "active" e0) by reflexivity.
  destruct (resetsScroll sid d && _), (writesLabel sid d && _);
    rewrite ?Ht, ?Hz; apply hasClass_add.
Qed.

Lemma switchAll_keeps_marker (ids : list string) (p : Page) (x : nat) :
  forallb selector_safe ids = true ->
  x ∉ channelItems (document p) -> x ∉ sections (document p) ->
  hasClass "active" <$> (document p !! x) = Some true ->
  hasClass "active" <$> (document (switchAll ids p) !! x) = Some true.
Proof.
  unfold switchAll. revert p.
  induction ids as [|id ids IH]; intros p H Hi Hs Ha; [exact Ha|].
  cbn [forallb] in H. apply andb_prop in H as [Hid H]. cbn [foldl].
  pose proof (static_switchSection p id Hid) as Hst.
  apply (IH _ H).
  - now rewrite (channelItems_static _ _ Hst).
  - now rewrite (sections_static _ _ Hst).
  - rewrite (switchSection_lookup p id x Hid).
    destruct (document p !! x) as [e|]; [|discriminate].
    cbn in *. injection Ha as Ha. f_equal. now apply finalE_keeps_marker.
Qed.

(** X7: a marker that is never taken off.  When the id names an element
    that is neither a NavigationItem nor a content panel (the label,
    say, reached through the fragment [#channel-name]), [switchSection]
    puts the active marker on it, and no later call of [switchSection],
    with whatever ids, removes it: the two loops only visit the
    NavigationItems and the panels. *)
Theorem marker_outside_lists_stays (p : Page) (sid : string)
    (ids : list string) (x : nat) :
  selector_safe sid = true ->
  forallb selector_safe ids = true ->
  getElementById sid (document p) = Some x ->
  x ∉ channelItems (document p) ->
  x ∉ sections (document p) ->
  hasClass "active" <$> (document (switchAll (sid :: ids) p) !! x) = Some true.
Proof.
  intros Hsafe Hids Hg Hi Hs.
  pose proof (static_switchSection p sid Hsafe) as Hst.
  change (switchAll (sid :: ids) p)
    with (switchAll ids (page_of (switchSection p sid))).
  apply switchAll_keeps_marker; [exact Hids | | |].
  - now rewrite (channelItems_static _ _ Hst).
  - now rewrite (sections_static _ _ Hst).
  - rewrite (switchSection_lookup p sid x Hsafe).
    assert (Hx : exists e, document p !! x = Some e).
    { unfold getElementById in Hg. destruct (String.eqb sid ""); [discriminate|].
      apply querySelector_Some_lookup in Hg as (e & He & _). eauto. }
    destruct Hx as [e He]. rewrite He. cbn. f_equal. now apply finalE_marks.
Qed.

Lemma marker_outside_lists_stays_witness :
  hasClass "active"
    <$> (document (switchAll ("channel-name" :: ["demo"; "hero"]) Sample.page) !! 5%nat)
  = Some true.
Proof.
  apply (marker_outside_lists_stays Sample.page "channel-name" ["demo"; "hero"] 5);
    try reflexivity.
  - apply (bool_decide_eq_false_1 (5%nat ∈ channelItems (document Sample.page))).
    vm_compute. reflexivity.
  - apply (bool_decide_eq_false_1 (5%nat ∈ sections (document Sample.page))).
    vm_compute. reflexivity.
Defined.

(** X8: the last call wins, and the DOM contract is kept.  On a page
    that keeps the contract, after any run of [switchSection] calls that
    ends with the id of a content panel, that panel is the only active
    one, whatever ids came before, and the page still keeps the
    contract. *)
Theorem switchAll_last_wins (p : Page) (ids : list string) (sid : string) :
  dom_contract (document p) = true ->
  forallb selector_safe ids = true ->
  isSectionId sid (document p) = true ->
  exists j e,
    document p !! j = Some e /\ el_id e = sid
    /\ activeSections (document (switchAll (ids ++ [sid]) p)) = [j]
    /\ dom_contract (document (switchAll (ids ++ [sid]) p)) = true.
Proof.
  intros Hc Hids Hsid. apply isSectionId_spec in Hsid as (j & e & Hj & He & Hid).
  destruct (dom_contract_panel _ j Hc Hj) as (e0 & i & He0 & Hsafe & Hget & _).
  rewrite He in He0. injection He0 as <-. rewrite Hid in Hsafe, Hget.
  exists j, e. split_and!; [exact He | exact Hid | |].
  - unfold switchAll. rewrite foldl_app. cbn [foldl]. fold (switchAll ids p).
    pose proof (static_switchAll ids p Hids) as Hst.
    rewrite (activeSections_attrs _ _ (switchSection_attrs _ sid Hsafe)).
    apply markedDoc_activeSections.
    + now rewrite (dom_contract_static _ _ Hst).
    + now rewrite (sections_static _ _ Hst).
    + now rewrite (getElementById_static _ _ Hst).
  - rewrite (dom_contract_static _ (document p)); [exact Hc|].
    apply static_switchAll. rewrite forallb_app. cbn [forallb].
    now rewrite Hids, Hsafe.
Qed.

Lemma switchAll_last_wins_witness :
  exists j e,
    document Sample.page !! j = Some e /\ el_id e = "setup"
    /\ activeSections (document (switchAll (["demo"; "nope"] ++ ["setup"]) Sample.page))
       = [j]
    /\ dom_contract (document (switchAll (["demo"; "nope"] ++ ["setup"]) Sample.page))
       = true.
Proof.
  apply (switchAll_last_wins Sample.page ["demo"; "nope"] "setup"); reflexivity.
Defined.

End EffectsFacts.

(** ** Click listeners and history *)

Module ClicksFacts.
Import Dom Browser Router Effects Clicks DomFacts RouterFacts KeyboardFacts EffectsFacts.

Lemma findFrom_Some (sel : Markup -> bool) (mk : list Markup) (n x : nat) :
  findFrom n sel mk = Some x ->
  (n <= x)%nat /\ exists m, mk !! (x - n)%nat = Some m /\ sel m = true.
Proof.
  revert n. induction mk as [|m mk IH]; intros n H; [discriminate|].
  cbn [findFrom] in H. destruct (sel m) eqn:E.
  - injection H as <-. split; [lia|]. exists m. now rewrite Nat.sub_diag.
  - destruct (IH _ H) as (Hle & m' & Hm' & Hs). split; [lia|].
    exists m'. split; [|exact Hs].
    replace (x - n)%nat with (S (x - S n)) by lia. exact Hm'.
Qed.

Lemma demoBtn_markup (mk : list Markup) (x : nat) :
  demoBtn mk = Some x ->
  exists m, mk !! x = Some m /\ tagName m = "a" /\ attr_href m = Some "#demo".
Proof.
  intros H. apply findFrom_Some in H as (_ & m & Hm & Hsel).
  rewrite Nat.sub_0_r in Hm. exists m. split; [exact Hm|].
  unfold sel_demoLink in Hsel. apply andb_prop in Hsel as [Ht Hh].
  apply String.eqb_eq in Ht. destruct (attr_href m) as [h|]; [|discriminate].
  apply String.eqb_eq in Hh. now subst.
Qed.

Lemma optional_elements_static (d d' : Document) :
  map static d = map static d' -> optional_elements d = optional_elements d'.
Proof.
  intros H. unfold optional_elements, channelNameEl.
  now rewrite (messagesContainer_static d d' H), (getElementById_static d d' H).
Qed.

(** With both optional elements in place a call returns and pushes. *)
Lemma switchSection_pushes (p : Page) (sid : string) :
  optional_elements (document p) = true -> selector_safe sid = true ->
  history (page_of (switchSection p sid)) = pushState ("#" ++ sid) (history p).
Proof.
  intros Hopt Hsafe. unfold optional_elements in Hopt.
  apply andb_prop in Hopt as [Hc Hl].
  apply bool_decide_eq_true in Hc as [c Hc].
  apply bool_decide_eq_true in Hl as [l Hl].
  rewrite (switchSection_normal_form p sid Hsafe), Hc. unfold labelStep. rewrite Hl.
  now destruct (getElementById sid (document p)), (truthy _).
Qed.

Lemma head_matchesFrom_le (sel : Selector) (d : Document) (n f y : nat) :
  head (matchesFrom n sel d) = Some f -> y ∈ matchesFrom n sel d -> (f <= y)%nat.
Proof.
  revert n. induction d as [|a d IH]; intros n Hf Hy; [inversion Hy|].
  cbn [matchesFrom] in *. destruct (sel a).
  - cbn in Hf. injection Hf as <-.
    apply elem_of_cons in Hy as [->|Hy]; [lia|].
    apply elem_of_matchesFrom in Hy as [Hle _]. lia.
  - now apply (IH (S n)).
Qed.

Lemma querySelector_first (sel : Selector) (d : Document) (x : nat) (e : Element) :
  d !! x = Some e -> sel e = true ->
  exists f, querySelector sel d = Some f /\ (f <= x)%nat.
Proof.
  intros He Hsel.
  assert (Hx : x ∈ querySelectorAll sel d)
    by (apply elem_of_querySelectorAll; eauto).
  unfold querySelector. destruct (querySelectorAll sel d) as [|f l] eqn:E.
  - inversion Hx.
  - exists f. split; [reflexivity|].
    apply (head_matchesFrom_le sel d 0 f x); unfold querySelectorAll in E;
      rewrite E; [reflexivity | exact Hx].
Qed.

Lemma finalE_marks_item (sid : string) (d : Document) (x : nat) (e : Element) :
  querySelector (sel_dataSection sid) d = Some x ->
  hasClass "active" (finalE sid d x e) = true.
Proof.
  intros Hq. unfold finalE, markE. cbv zeta.
  rewrite (bool_decide_eq_true_2 _ Hq).
  assert (Ht : forall t e0, hasClass "active" (set_textContent t e0)
                            = hasClass "active" e0) by reflexivity.
  assert (Hz : forall z e0, hasClass "active" (set_scrollTop z e0)
                            = hasClass "active" e0) by reflexivity.
  destruct (resetsScroll sid d && _), (writesLabel sid d && _);
    rewrite ?Ht, ?Hz; case_bool_decide; apply hasClass_add.
Qed.

Lemma finalE_unmarks (sid : string) (d : Document) (x : nat) (e : Element) :
  x ∈ channelItems d \/ x ∈ sections d ->
  querySelector (sel_dataSection sid) d <> Some x ->
  getElementById sid d <> Some x ->
  hasClass "active" (finalE sid d x e) = false.
Proof.
  intros Hx Hq Hg. unfold finalE, markE. cbv zeta.
  rewrite (bool_decide_eq_false_2 _ Hq), (bool_decide_eq_false_2 _ Hg).
  assert (Ht : forall t e0, hasClass "active" (set_textContent t e0)
                            = hasClass "active" e0) by reflexivity.
  assert (Hz : forall z e0, hasClass "active" (set_scrollTop z e0)
                            = hasClass "active" e0) by reflexivity.
  destruct (resetsScroll sid d && _), (writesLabel sid d && _);
    rewrite ?Ht, ?Hz; repeat case_bool_decide;
    try apply hasClass_remove; destruct Hx; contradiction.
Qed.

(** X9: the listener of the links whose [href] starts with [#] calls
    [switchSection] with the text after the [#] without looking whether
    any element has that id, unlike the hash-change listener, which does
    nothing for the same fragment.  A click on such a link whose target
    names nothing in the document leaves no NavigationItem and no
    content panel active. *)
Theorem link_click_unchecked (mk : list Markup) (p : Page) (x : nat) (t : string) :
  mk !! x = Some (mkMarkup "a" (Some ("#" ++ t)%string)) ->
  t <> "" ->
  x ∉ channelItems (document p) ->
  demoBtn mk <> Some x ->
  selector_safe t = true ->
  getElementById t (document p) = None ->
  querySelector (sel_dataSection t) (document p) = None ->
  clickCalls mk (document p) x = [t]
  /\ hashChangeCall (mkPage (document p) (mkHistory [] ("#" ++ t) [])) = None
  /\ activeItems (document (click mk x p)) = []
  /\ activeSections (document (click mk x p)) = [].
Proof.
  intros Hm Ht Hx Hdemo Hsafe Hid Hds.
  assert (Hcalls : clickCalls mk (document p) x = [t]).
  { unfold clickCalls, itemCalls, demoCalls, linkCalls.
    rewrite (bool_decide_eq_false_2 _ Hx), (bool_decide_eq_false_2 _ Hdemo), Hm.
    cbn [app sel_hashLink tagName attr_href String.eqb Ascii.eqb Bool.eqb andb
         startsWithHash append String.length slice1].
    destruct t as [|c t]; [contradiction | reflexivity]. }
  assert (Hdoc : map attrs (document (click mk x p)) = map attrs (cleared (document p))).
  { unfold click. rewrite Hcalls. unfold switchAll. cbn [foldl].
    rewrite (switchSection_attrs p t Hsafe), markedDoc_unfold. cbv zeta.
    now rewrite Hid, Hds. }
  split_and!.
  - exact Hcalls.
  - unfold hashChangeCall, location_hash. cbn [history here document].
    destruct t as [|c t]; [contradiction|].
    cbn [append String.eqb Ascii.eqb Bool.eqb slice1 negb andb].
    rewrite Hid. reflexivity.
  - rewrite (activeItems_attrs _ _ Hdoc). apply cleared_activeItems.
  - rewrite (activeSections_attrs _ _ Hdoc). apply cleared_activeSections.
Qed.

Lemma link_click_unchecked_witness :
  clickCalls Links.markup (document Links.page) 13 = ["top"]
  /\ hashChangeCall (mkPage (document Links.page) (mkHistory [] "#top" [])) = None
  /\ activeItems (document (click Links.markup 13 Links.page)) = []
  /\ activeSections (document (click Links.markup 13 Links.page)) = [].
Proof.
  apply (link_click_unchecked Links.markup Links.page 13 "top");
    try reflexivity; try discriminate.
  apply (bool_decide_eq_false_1 (13%nat ∈ channelItems (document Links.page))).
  vm_compute. reflexivity.
Defined.

(** X10: the link that [demoBtn] names has two listeners, its own and
    the one of all links whose [href] starts with [#]; both call
    [switchSection('demo')].  A click on it therefore pushes the entry
    [#demo] twice: on a page with the scroll container and the label,
    the fragment afterwards is [#demo] and so is the first entry to go
    back to. *)
Theorem demo_click_pushes_twice (mk : list Markup) (p : Page) (x : nat) :
  demoBtn mk = Some x ->
  optional_elements (document p) = true ->
  forallb selector_safe (itemCalls (document p) x) = true ->
  clickCalls mk (document p) x = itemCalls (document p) x ++ ["demo"; "demo"]
  /\ fragment (click mk x p) = "#demo"
  /\ head (back (history (click mk x p))) = Some "#demo".
Proof.
  intros Hdemo Hopt Hpre.
  destruct (demoBtn_markup mk x Hdemo) as (m & Hm & Htag & Hhref).
  assert (Hcalls : clickCalls mk (document p) x
                   = itemCalls (document p) x ++ ["demo"; "demo"]).
  { unfold clickCalls, demoCalls, linkCalls.
    rewrite (bool_decide_eq_true_2 _ Hdemo), Hm.
    unfold sel_hashLink. rewrite Htag, Hhref. reflexivity. }
  unfold click. rewrite Hcalls. unfold switchAll.
  rewrite foldl_app. cbn [foldl].
  fold (switchAll (itemCalls (document p) x) p).
  set (q := switchAll (itemCalls (document p) x) p).
  assert (Hq : optional_elements (document q) = true).
  { unfold q. now rewrite (optional_elements_static _ _ (static_switchAll _ p Hpre)). }
  assert (Hq1 : optional_elements (document (page_of (switchSection q "demo"))) = true).
  { now rewrite (optional_elements_static _ _ (static_switchSection q "demo" eq_refl)). }
  split_and!; [reflexivity | |]; unfold fragment;
    rewrite (switchSection_pushes _ "demo" Hq1 eq_refl); cbn [pushState here back head];
    [reflexivity|].
  now rewrite (switchSection_pushes q "demo" Hq eq_refl).
Qed.

Lemma demo_click_pushes_twice_witness :
  clickCalls Links.markup (document Links.page) 12
  = itemCalls (document Links.page) 12 ++ ["demo"; "demo"]
  /\ fragment (click Links.markup 12 Links.page) = "#demo"
  /\ head (back (history (click Links.markup 12 Links.page))) = Some "#demo".
Proof. apply (demo_click_pushes_twice Links.markup Links.page 12); reflexivity. Defined.

(** X11: the listener of a NavigationItem passes the item's
    [data-section] value, and [switchSection] marks the first element
    of the document that carries this value.  When an earlier element
    carries the same value, the clicked item is not the one marked, and
    (unless its id is that value) it is left without the marker. *)
Theorem item_click_marks_first (p : Page) (x : nat) (v : string) :
  x ∈ channelItems (document p) ->
  el_dataSection <$> (document p !! x) = Some (Some v) ->
  selector_safe v = true ->
  itemCalls (document p) x = [v]
  /\ exists f,
       querySelector (sel_dataSection v) (document p) = Some f
       /\ (f <= x)%nat
       /\ hasClass "active"
            <$> (document (switchAll (itemCalls (document p) x) p) !! f)
          = Some true
       /\ (f <> x -> getElementById v (document p) <> Some x ->
           hasClass "active"
             <$> (document (switchAll (itemCalls (document p) x) p) !! x)
           = Some false).
Proof.
  intros Hx Hv Hsafe.
  destruct (document p !! x) as [e|] eqn:He; [|discriminate].
  cbn in Hv. injection Hv as Hv.
  assert (Hcalls : itemCalls (document p) x = [v]).
  { unfold itemCalls. now rewrite (bool_decide_eq_true_2 _ Hx), He, Hv. }
  split; [exact Hcalls|].
  destruct (querySelector_first (sel_dataSection v) (document p) x e He)
    as (f & Hf & Hle).
  { unfold sel_dataSection. rewrite Hv. apply String.eqb_refl. }
  exists f. rewrite Hcalls. unfold switchAll. cbn [foldl].
  split_and!; [exact Hf | exact Hle | |].
  - rewrite (switchSection_lookup p v f Hsafe).
    destruct (querySelector_Some_lookup _ _ _ Hf) as (ef & Hef & _).
    rewrite Hef. cbn. f_equal. now apply finalE_marks_item.
  - intros Hne Hid. rewrite (switchSection_lookup p v x Hsafe), He. cbn. f_equal.
    apply finalE_unmarks; [now left | | exact Hid].
    rewrite Hf. congruence.
Qed.

Lemma item_click_marks_first_witness :
  itemCalls (document Links.pageTwins) 1 = ["hero"]
  /\ exists f,
       querySelector (sel_dataSection "hero") (document Links.pageTwins) = Some f
       /\ (f <= 1)%nat
       /\ hasClass "active"
            <$> (document (switchAll (itemCalls (document Links.pageTwins) 1)
                                     Links.pageTwins) !! f)
          = Some true
       /\ (f <> 1%nat ->
           getElementById "hero" (document Links.pageTwins) <> Some 1%nat ->
           hasClass "active"
             <$> (document (switchAll (itemCalls (document Links.pageTwins) 1)
                                      Links.pageTwins) !! 1%nat)
           = Some false).
Proof.
  apply (item_click_marks_first Links.pageTwins 1 "hero"); try reflexivity.
  apply (bool_decide_eq_true_1 (1%nat ∈ channelItems (document Links.pageTwins))).
  vm_compute. reflexivity.
Defined.

Lemma handleHashChange_history (p : Page) (h : string) :
  here (history p) = ("#" ++ h)%string -> h <> "" ->
  is_Some (getElementById h (document p)) ->
  optional_elements (document p) = true ->
  selector_safe h = true ->
  history (page_of (handleHashChange p)) = pushState ("#" ++ h) (history p).
Proof.
  intros Hhere Hne Hid Hopt Hsafe.
  assert (Hcall : hashChangeCall p = Some h).
  { unfold hashChangeCall, location_hash. rewrite Hhere.
    destruct h as [|c h]; [contradiction|].
    cbn [append String.eqb Ascii.eqb Bool.eqb slice1 negb andb].
    now rewrite (bool_decide_eq_true_2 _ Hid). }
  unfold handleHashChange. rewrite Hcall. now apply switchSection_pushes.
Qed.

(** X12: the hash-change listener answers a fragment that names an
    element by a call that pushes the same fragment again.  After it the
    address bar shows what it showed, and the entry to go back to is an
    equal one: each visit of a fragment by its address leaves two
    entries. *)
Theorem handleHashChange_duplicates_entry (p : Page) (h : string) :
  here (history p) = ("#" ++ h)%string -> h <> "" ->
  is_Some (getElementById h (document p)) ->
  optional_elements (document p) = true ->
  selector_safe h = true ->
  fragment (page_of (handleHashChange p)) = fragment p
  /\ back (history (page_of (handleHashChange p)))
     = fragment p :: back (history p)
  /\ forward (history (page_of (handleHashChange p))) = [].
Proof.
  intros Hhere Hne Hid Hopt Hsafe. unfold fragment.
  rewrite (handleHashChange_history p h Hhere Hne Hid Hopt Hsafe).
  cbn [pushState here back forward]. now rewrite Hhere.
Qed.

Lemma handleHashChange_duplicates_entry_witness :
  fragment (page_of (handleHashChange Links.pageVisited)) = fragment Links.pageVisited
  /\ back (history (page_of (handleHashChange Links.pageVisited)))
     = fragment Links.pageVisited :: back (history Links.pageVisited)
  /\ forward (history (page_of (handleHashChange Links.pageVisited))) = [].
Proof.
  apply (handleHashChange_duplicates_entry Links.pageVisited "features");
    try reflexivity; [discriminate | vm_compute; eauto].
Defined.

(** X13: going back is not undone by going forward.  When the browser
    goes back to an entry with another fragment that names an element,
    the hash-change listener calls [switchSection], whose [pushState]
    drops the entries after the current one: the entry the user came
    from is gone, no forward entry is left, and the entry arrived at is
    there twice. *)
Theorem goBack_drops_forward (p : Page) (h : string) (bs : list string) :
  back (history p) = ("#" ++ h)%string :: bs ->
  here (history p) <> ("#" ++ h)%string ->
  h <> "" ->
  is_Some (getElementById h (document p)) ->
  optional_elements (document p) = true ->
  selector_safe h = true ->
  forward (traverseBack (history p)) = here (history p) :: forward (history p)
  /\ history (goBack p)
     = mkHistory (("#" ++ h)%string :: bs) ("#" ++ h) [].
Proof.
  intros Hback Hhere Hne Hid Hopt Hsafe.
  unfold goBack, traverseBack. rewrite Hback. cbv zeta.
  cbn [history here forward]. split; [reflexivity|].
  destruct (String.eqb_spec ("#" ++ h) (here (history p))) as [E|_];
    [now symmetry in E|].
  now rewrite (handleHashChange_history
                 (mkPage (document p)
                         (mkHistory bs ("#" ++ h) (here (history p) :: forward (history p))))
                 h eq_refl Hne Hid Hopt Hsafe).
Qed.

Lemma goBack_drops_forward_witness :
  forward (traverseBack (history Links.pageVisited))
  = here (history Links.pageVisited) :: forward (history Links.pageVisited)
  /\ history (goBack Links.pageVisited)
     = mkHistory ["#demo"; ""] "#demo" [].
Proof.
  apply (goBack_drops_forward Links.pageVisited "demo" [""]);
    try reflexivity; try discriminate. vm_compute. eauto.
Defined.

End ClicksFacts.

(** ** Loading, arrow keys and the address bar *)

Module NavigationFacts.
Import Dom Browser Router Keyboard Effects Clicks.
Import DomFacts RouterFacts KeyboardFacts EffectsFacts ClicksFacts.

Local Open Scope Z_scope.

(** X14: loading the page at the fragment of a content panel.  On a page
    that keeps the DOM contract, when the address bar holds [#] followed
    by the id of a panel, the initial load leaves exactly that panel and
    exactly its NavigationItem active. *)
Theorem initialLoad_activates_panel (p : Page) (sid : string) :
  dom_contract (document p) = true ->
  isSectionId sid (document p) = true ->
  here (history p) = ("#" ++ sid)%string ->
  initialLoad p = switchSection p sid
  /\ exists i j,
       activeItems (document (page_of (initialLoad p))) = [i]
       /\ activeSections (document (page_of (initialLoad p))) = [j]
       /\ el_dataSection <$> (document p !! i) = Some (Some sid)
       /\ el_id <$> (document p !! j) = Some sid.
Proof.
  intros Hc Hsid Hhere.
  apply isSectionId_spec in Hsid as (j & e & Hj & He & Hid).
  destruct (dom_contract_panel _ j Hc Hj) as (e0 & i & He0 & Hsafe & Hget & Hds & Hi).
  rewrite He in He0. injection He0 as <-. rewrite Hid in Hsafe, Hget, Hds.
  assert (Hne : sid <> "").
  { intros ->. unfold getElementById in Hget. discriminate. }
  assert (Hload : initialLoad p = switchSection p sid).
  { unfold initialLoad, handleHashChange, hashChangeCall, location_hash.
    rewrite Hhere. destruct sid as [|c sid]; [contradiction|].
    cbn [append String.eqb Ascii.eqb Bool.eqb slice1 negb andb].
    now rewrite Hget, bool_decide_eq_true_2 by eauto. }
  split; [exact Hload|]. rewrite Hload.
  exists i, j.
  rewrite (activeItems_attrs _ _ (switchSection_attrs p sid Hsafe)).
  rewrite (activeSections_attrs _ _ (switchSection_attrs p sid Hsafe)).
  destruct (querySelector_Some_lookup _ _ _ Hds) as (ei & Hei & Hsel).
  split_and!.
  - now apply (markedDoc_activeItems sid _ i j).
  - now apply markedDoc_activeSections.
  - rewrite Hei. cbn. f_equal. now apply sel_dataSection_true.
  - rewrite He. cbn. now f_equal.
Qed.

Lemma initialLoad_activates_panel_witness :
  initialLoad Links.pageVisited = switchSection Links.pageVisited "features"
  /\ exists i j,
       activeItems (document (page_of (initialLoad Links.pageVisited))) = [i]
       /\ activeSections (document (page_of (initialLoad Links.pageVisited))) = [j]
       /\ el_dataSection <$> (document Links.pageVisited !! i) = Some (Some "features")
       /\ el_id <$> (document Links.pageVisited !! j) = Some "features".
Proof.
  apply (initialLoad_activates_panel Links.pageVisited "features"); reflexivity.
Defined.

Lemma wrapped_left_right (i n : Z) :
  0 <= i < n -> wrapped "ArrowLeft" (wrapped "ArrowRight" i n) n = i.
Proof.
  intros Hi. unfold wrapped. cbn [String.eqb Ascii.eqb Bool.eqb].
  replace ((i + 1) mod n - 1 + n) with ((i + 1) mod n + (n - 1)) by lia.
  rewrite Zplus_mod_idemp_l.
  replace (i + 1 + (n - 1)) with (i + 1 * n) by lia.
  rewrite Z_mod_plus_full. apply Z.mod_small. lia.
Qed.

Lemma wrapped_right_left (i n : Z) :
  0 <= i < n -> wrapped "ArrowRight" (wrapped "ArrowLeft" i n) n = i.
Proof.
  intros Hi. unfold wrapped. cbn [String.eqb Ascii.eqb Bool.eqb].
  rewrite Zplus_mod_idemp_l.
  replace (i - 1 + n + 1) with (i + 1 * n) by lia.
  rewrite Z_mod_plus_full. apply Z.mod_small. lia.
Qed.

Lemma press_press (p : Page) (k1 k2 : string) (a : nat) :
  dom_contract (document p) = true ->
  querySelector sel_activeSection (document p) = Some a ->
  isArrow k1 = true -> isArrow k2 = true ->
  wrapped k2 (wrapped k1 (currentIndex (document p))
                      (Z.of_nat (length (sections (document p)))))
          (Z.of_nat (length (sections (document p))))
  = currentIndex (document p) ->
  activeSections (document (press k2 (press k1 p))) = [a].
Proof.
  intros Hc Ha Hk1 Hk2 Hw.
  assert (Hidx : 0 <= currentIndex (document p)
                 /\ sections (document p) !! Z.to_nat (currentIndex (document p)) = Some a).
  { unfold currentIndex. rewrite Ha. apply indexOf_elem.
    now apply activeSection_in_sections. }
  destruct Hidx as [H0 Hlook].
  pose proof (currentIndex_range (document p)) as Hr.
  destruct (press_index p k1 Hc Hk1) as (j1 & _ & _ & Hci1 & Hst1); [lia|].
  destruct (press_index (press k1 p) k2) as (j2 & Hj2 & Hact & _ & _).
  - now rewrite (dom_contract_static _ _ Hst1).
  - exact Hk2.
  - rewrite (sections_static _ _ Hst1). lia.
  - rewrite Hact. f_equal.
    rewrite Hci1, (sections_static _ _ Hst1), Hw in Hj2. congruence.
Qed.

(** X15: left undoes right and right undoes left.  On a page that keeps
    the DOM contract, with some panel active, a right press followed by
    a left press, or a left press followed by a right press, leaves
    active the panel that was active (the first one, had several been
    marked), and no other. *)
Theorem left_and_right_cancel (p : Page) (a : nat) :
  dom_contract (document p) = true ->
  querySelector sel_activeSection (document p) = Some a ->
  activeSections (document (press "ArrowLeft" (press "ArrowRight" p))) = [a]
  /\ activeSections (document (press "ArrowRight" (press "ArrowLeft" p))) = [a].
Proof.
  intros Hc Ha.
  assert (Hidx : 0 <= currentIndex (document p)).
  { unfold currentIndex. rewrite Ha. apply indexOf_elem.
    now apply activeSection_in_sections. }
  pose proof (currentIndex_range (document p)) as Hr.
  split; apply press_press; try assumption; try reflexivity.
  - apply wrapped_left_right. lia.
  - apply wrapped_right_left. lia.
Qed.

Lemma left_and_right_cancel_witness :
  activeSections (document (press "ArrowLeft" (press "ArrowRight" Sample.page))) = [7%nat]
  /\ activeSections (document (press "ArrowRight" (press "ArrowLeft" Sample.page)))
     = [7%nat].
Proof. apply (left_and_right_cancel Sample.page 7); reflexivity. Defined.



End NavigationFacts.

(** ** The key-sequence matcher, after a match *)

Module KonamiQuiet.
Import Konami KonamiFacts.

Lemma strip_prefix_append (a b t : string) :
  (a ++ b)%string = t -> strip_prefix a t = Some b.
Proof. intros <-. apply strip_prefix_app. Qed.

Lemma tail_is_no_prefix (j : nat) :
  1 <= j <= 9 ->
  strip_prefix (join (drop j konamiSequence)) (join konamiSequence) = None.
Proof.
  intros Hj.
  do 10 (destruct j as [|j]; [first [lia | vm_compute; reflexivity]|]).
  lia.
Qed.

Lemma fires_after_sequence (ks : list string) (k : string) :
  length ks <= 8 ->
  String.eqb (join (slice_last10 (konamiSequence ++ ks ++ [k])))
             (join konamiSequence) = false.
Proof.
  intros Hlen. apply String.eqb_neq. intros E.
  unfold slice_last10 in E.
  assert (Hn : length (konamiSequence ++ ks ++ [k]) - 10 = S (length ks)).
  { rewrite !length_app. cbn [length]. change (length konamiSequence) with 10. lia. }
  rewrite Hn in E.
  rewrite drop_app_le in E by (change (length konamiSequence) with 10; lia).
  rewrite join_app in E.
  apply strip_prefix_append in E.
  rewrite tail_is_no_prefix in E by lia. discriminate.
Qed.

Lemma run_after_sequence (ks : list string) :
  length ks <= 9 ->
  snd (run konamiSequence ks) = repeat false (length ks).
Proof.
  induction ks as [|k ks IH] using rev_ind; intros Hlen; [reflexivity|].
  rewrite length_app in Hlen. cbn [length] in Hlen.
  rewrite run_app. cbn [snd]. rewrite IH by lia.
  rewrite length_app. cbn [length].
  rewrite repeat_app. f_equal. cbn [repeat run snd keydown]. f_equal.
  destruct ks as [|k0 ks0].
  - cbn [run fst]. apply (fires_after_sequence [] k). cbn. lia.
  - rewrite run_fst by discriminate. rewrite slice_last10_app, <- app_assoc.
    apply fires_after_sequence. lia.
Qed.

(** X17: after the sequence has been typed, none of the next nine key
    presses starts the animation again, whatever their key values are:
    two starts by the sequence are at least ten key presses apart. *)
Theorem no_retrigger_within_nine (c ks : list string) :
  length ks <= 9 ->
  snd (run c (konamiSequence ++ ks))
  = repeat false 9 ++ [true] ++ repeat false (length ks).
Proof.
  intros Hlen. rewrite run_app. cbn [snd]. rewrite run_sequence.
  rewrite <- app_assoc. do 2 f_equal.
  rewrite run_fst by discriminate.
  rewrite slice_last10_suffix by reflexivity.
  now apply run_after_sequence.
Qed.

Lemma no_retrigger_within_nine_witness :
  snd (run ["x"] (konamiSequence ++ ["b"; "a"; "a"]))
  = repeat false 9 ++ [true] ++ repeat false 3.
Proof. apply (no_retrigger_within_nine ["x"] ["b"; "a"; "a"]). cbn. lia. Defined.

End KonamiQuiet.

(** ** The menu toggle and the sparkle *)

Module WidgetsFacts.
Import Dom Browser Router Widgets DomFacts RouterFacts.

Lemma existsb_filter_other (c c' : string) (l : list string) :
  c' <> c ->
  existsb (String.eqb c') (List.filter (fun x => negb (String.eqb c x)) l)
  = existsb (String.eqb c') l.
Proof.
  intros Hne. induction l as [|x l IH]; [reflexivity|].
  cbn [List.filter existsb]. destruct (String.eqb_spec c x) as [<-|Hx]; cbn [negb].
  - rewrite IH. apply String.eqb_neq in Hne. now rewrite Hne.
  - cbn [existsb]. now rewrite IH.
Qed.

Lemma hasClass_remove_other (c c' : string) (e : Element) :
  c' <> c -> hasClass c' (classList_remove c e) = hasClass c' e.
Proof. intros Hne. unfold hasClass, classList_remove. cbn [el_classes]. now apply existsb_filter_other. Qed.

Lemma hasClass_add_other (c c' : string) (e : Element) :
  c' <> c -> hasClass c' (classList_add c e) = hasClass c' e.
Proof.
  intros Hne. unfold classList_add. destruct (hasClass c e); [reflexivity|].
  unfold hasClass. cbn [el_classes]. rewrite existsb_app. cbn [existsb].
  apply String.eqb_neq in Hne. rewrite Hne. now rewrite !orb_false_r.
Qed.

Lemma hasClass_toggle (c c' : string) (e : Element) :
  hasClass c' (classList_toggle c e)
  = if String.eqb c' c then negb (hasClass c e) else hasClass c' e.
Proof.
  unfold classList_toggle. destruct (String.eqb_spec c' c) as [->|Hne].
  - destruct (hasClass c e) eqn:E; [apply hasClass_remove | apply hasClass_add].
  - destruct (hasClass c e); [now apply hasClass_remove_other | now apply hasClass_add_other].
Qed.

Lemma hasClass_toggle_twice (c c' : string) (e : Element) :
  hasClass c' (classList_toggle c (classList_toggle c e)) = hasClass c' e.
Proof.
  rewrite !hasClass_toggle. rewrite String.eqb_refl.
  destruct (String.eqb_spec c' c) as [->|_]; [|reflexivity].
  now rewrite negb_involutive.
Qed.

Lemma content_toggle (c : string) (e : Element) :
  content (classList_toggle c e) = content e.
Proof.
  unfold classList_toggle, classList_add.
  now destruct (hasClass c e).
Qed.

(** X18: the menu toggle.  When the document has no element of class
    [sidebar] a click on the toggle throws a TypeError and changes
    nothing.  Otherwise the first click flips the class [open] of the
    sidebar and touches nothing else: the active panels, every text and
    scroll offset and the history stay as they are; and a second click
    brings every class of every element back. *)
Theorem toggle_click (p : Page) :
  match querySelector sel_sidebar (document p) with
  | None => toggleClick p = Threw TypeError p
  | Some s =>
      exists q1 q2,
        toggleClick p = Returned q1 /\ toggleClick q1 = Returned q2
        /\ hasClass "open" <$> (document q1 !! s)
           = negb <$> (hasClass "open" <$> (document p !! s))
        /\ activeSections (document q1) = activeSections (document p)
        /\ map content (document q1) = map content (document p)
        /\ history q1 = history p /\ history q2 = history p
        /\ forall c, map (hasClass c) (document q2) = map (hasClass c) (document p)
  end.
Proof.
  destruct (querySelector sel_sidebar (document p)) as [s|] eqn:Hs;
    [|unfold toggleClick; now rewrite Hs].
  set (d1 := alter (classList_toggle "open") s (document p)).
  assert (Hs1 : querySelector sel_sidebar d1 = Some s).
  { rewrite <- Hs. unfold querySelector, querySelectorAll. f_equal.
    apply (matchesFrom_view (hasClass "sidebar")); [intros e e' H; exact H|].
    apply map_alter_view. intros e. now rewrite hasClass_toggle. }
  exists (with_document p d1),
    (with_document p (alter (classList_toggle "open") s d1)).
  split_and!; try reflexivity.
  - unfold toggleClick. now rewrite Hs.
  - unfold toggleClick. cbn [document with_document]. now rewrite Hs1.
  - cbn [document with_document]. unfold d1. rewrite list_lookup_alter_eq.
    destruct (document p !! s) as [e|]; [|reflexivity].
    cbn. f_equal. now rewrite hasClass_toggle.
  - cbn [document with_document]. unfold activeSections, querySelectorAll.
    apply (matchesFrom_view
             (fun e => (hasClass "content-section" e, hasClass "active" e))).
    + intros e e' H. unfold sel_activeSection.
      now rewrite (f_equal fst H : hasClass "content-section" e = _),
        (f_equal snd H : hasClass "active" e = _).
    + apply map_alter_view. intros e. now rewrite !hasClass_toggle.
  - cbn [document with_document]. apply map_alter_view, content_toggle.
  - intros c. cbn [document with_document]. unfold d1.
    rewrite list_alter_alter_eq. apply map_alter_view. intros e.
    apply hasClass_toggle_twice.
Qed.

Lemma mouseenter_length (b : Button) :
  (length (sparkles b) <= 1)%nat -> (length (sparkles (mouseenter b)) <= 1)%nat.
Proof. unfold mouseenter. destruct (sparkles b) eqn:E; cbn; [lia | now rewrite E]. Qed.

Lemma timeout_length (k : nat) (b : Button) :
  (length (sparkles (timeout k b)) <= length (sparkles b))%nat.
Proof.
  unfold timeout. cbn [sparkles].
  induction (sparkles b) as [|s l IH]; [reflexivity|].
  cbn [List.filter]. destruct (negb (Nat.eqb s k)); cbn [length]; lia.
Qed.

(** X19: a button never carries more than one sparkle.  Starting with at
    most one, after any sequence of pointer entries and timer expiries
    the button has at most one sparkle attached: an entry adds one only
    when none is there, a timer only removes. *)
Theorem sparkle_at_most_one (evs : list ButtonEvent) (b : Button) :
  (length (sparkles b) <= 1)%nat ->
  (length (sparkles (buttonRun evs b)) <= 1)%nat.
Proof.
  unfold buttonRun. revert b.
  induction evs as [|ev evs IH]; intros b Hb; [exact Hb|].
  cbn [foldl]. apply IH. destruct ev as [|k]; cbn [buttonStep].
  - now apply mouseenter_length.
  - pose proof (timeout_length k b). lia.
Qed.

Lemma sparkle_at_most_one_witness :
  (length (sparkles (buttonRun [MouseEnter; MouseEnter; Timeout 0; MouseEnter]
                               (mkButton [] 0))) <= 1)%nat.
Proof.
  apply (sparkle_at_most_one [MouseEnter; MouseEnter; Timeout 0; MouseEnter]
           (mkButton [] 0)).
  cbn. lia.
Defined.

End WidgetsFacts.
